(** * Verification of the Gemini chat adapter ([chat_models.py])

    A shallow embedding of [langchain_google_genai/chat_models.py]: the
    part converter, the chat-history translator, the response translator,
    the tenacity-based retrying invoker and the request preparation of
    [ChatGoogleGenerativeAI].

    Python objects are modelled by the data the code inspects; effects
    (logging, calls to collaborators, sleeping) are recorded in a trace that
    is threaded through an exception monad. *)

From Stdlib Require Import ZArith Floats.
From stdpp Require Import gmap strings list pretty.

Set Warnings "-register-all".
Local Open Scope string_scope.
Local Open Scope list_scope.

(** ** Python values *)

(** A decoded [PIL.Image.Image]; only its identity matters here. *)
Record image := Image { image_data : string }.

(** The values that occur inside message contents and request dicts. *)
Inductive pyval :=
| VNone
| VStr (s : string)
| VInt (n : Z)
| VFloat (x : float)
| VImage (img : image)
| VList (l : list pyval)
| VDict (d : gmap string pyval).

(** A Python [dict] with string keys. *)
Abbreviation dict := (gmap string pyval).

(** The double-quote character, for messages that contain it. *)
Definition dq : string := String (Ascii.ascii_of_nat 34) EmptyString.
(** A line break inside a message. *)
Definition nl : string := String (Ascii.ascii_of_nat 10) EmptyString.

(** [needle in hay] on Python strings. *)
Fixpoint str_contains (needle hay : string) : bool :=
  String.prefix needle hay ||
  match hay with
  | EmptyString => false
  | String _ hay' => str_contains needle hay'
  end.

(** ** Exceptions *)

Inductive exc_class :=
| BaseException | KeyboardInterrupt | Exception
| ValueError | TypeError | AttributeError | ImportError
| LookupError | KeyError | IndexError
| GoogleAPIError | GoogleAPICallError
| ResourceExhausted | ServiceUnavailable | FailedPrecondition | InvalidArgument
| GoogleGenerativeAIError | ChatGoogleGenerativeAIError
| RetryError.

#[global] Instance exc_class_eq_dec : EqDecision exc_class.
Proof. solve_decision. Defined.

(** Modelled from the spec: [GoogleGenerativeAIError] is declared in
    [langchain_google_genai._common], which is not part of the sources; the
    spec calls it a domain-specific error distinct from the backend errors,
    so it derives from [Exception] directly.  The other entries follow
    Python's builtins, [google.api_core.exceptions] and [tenacity]. *)
Definition base_class (c : exc_class) : option exc_class :=
  match c with
  | BaseException => None
  | KeyboardInterrupt => Some BaseException
  | Exception => Some BaseException
  | ValueError | TypeError | AttributeError | ImportError
  | LookupError => Some Exception
  | KeyError | IndexError => Some LookupError
  | GoogleAPIError => Some Exception
  | GoogleAPICallError => Some GoogleAPIError
  | ResourceExhausted | ServiceUnavailable
  | FailedPrecondition | InvalidArgument => Some GoogleAPICallError
  | GoogleGenerativeAIError => Some Exception
  | ChatGoogleGenerativeAIError => Some GoogleGenerativeAIError
  | RetryError => Some Exception
  end.

Fixpoint issubclass_upto (depth : nat) (c d : exc_class) : bool :=
  if decide (c = d) then true
  else match depth with
       | O => false
       | S depth' =>
           match base_class c with
           | Some b => issubclass_upto depth' b d
           | None => false
           end
       end.

(** The hierarchy above is five levels deep. *)
Definition issubclass (c d : exc_class) : bool := issubclass_upto 5 c d.

(** A raised exception: its class, its [message] and its [__cause__]. *)
Inductive exn :=
| Exn (cls : exc_class) (message : string) (cause : option exn).

Definition exn_class (e : exn) : exc_class := let 'Exn c _ _ := e in c.
Definition exn_message (e : exn) : string := let 'Exn _ m _ := e in m.
Definition exn_cause (e : exn) : option exn := let 'Exn _ _ c := e in c.

Definition isinstance (e : exn) (c : exc_class) : bool :=
  issubclass (exn_class e) c.

(** The outcome of a Python call: a value or a raised exception. *)
Inductive result (A : Type) :=
| Ok (a : A)
| Raise (e : exn).
Arguments Ok {A} a.
Arguments Raise {A} e.

Definition is_ok {A} (r : result A) : bool :=
  match r with Ok _ => true | Raise _ => false end.

(** ** Messages, turns and provider responses *)

(** [BaseMessage.content]: a string, or a list of strings and dicts. *)
Inductive content :=
| CStr (s : string)
| CList (l : list pyval).

(** The message classes the translator tells apart with [isinstance];
    chunk subclasses count as their base class. *)
Inductive msg_kind :=
| SystemMessage
| AIMessage
| HumanMessage
| OtherMessage (qualname : string).

Record message := Message { msg_kind_of : msg_kind; msg_content : content }.

(** What [type(message)] prints. *)
Definition type_repr (k : msg_kind) : string :=
  "<class '" +:+
  match k with
  | SystemMessage => "langchain_core.messages.system.SystemMessage"
  | AIMessage => "langchain_core.messages.ai.AIMessage"
  | HumanMessage => "langchain_core.messages.human.HumanMessage"
  | OtherMessage q => q
  end +:+ "'>".

(** A provider turn, the dict [{"role": role, "parts": parts}]. *)
Record Turn := mkTurn { role : string; parts : list dict }.

(** Python's [str] and [repr] of the objects that end up in messages; the
    exact text is the libraries' business. *)
Class PyStr (A : Type) := py_str : A -> string.

(** ** Effects *)

Inductive log_level := DEBUG | WARNING.

(** What a run does besides computing its value, in order. *)
Inductive event :=
| EvLog (lvl : log_level) (msg : string)
| EvConvertParts (raw : content)       (* [_convert_to_parts] entered *)
| EvLoadImage (src : pyval)            (* [_url_to_pil] called *)
| EvConfigure (api_key : string) (transport : option string)
| EvNewModel (model_name : string)     (* [genai.GenerativeModel] built *)
| EvStartChat (history : list Turn)    (* [client.start_chat] *)
| EvCall (attempt : nat)               (* the generation method invoked *)
| EvSleep (seconds : Z)                (* tenacity sleeps before a retry *)
| EvNewToken (text : string).          (* [run_manager.on_llm_new_token] *)

Definition trace := list event.

(** Computations that may raise and that extend the trace. *)
Definition M (A : Type) : Type := trace -> result A * trace.

Definition ret {A} (a : A) : M A := fun tr => (Ok a, tr).
Definition raise {A} (e : exn) : M A := fun tr => (Raise e, tr).
Definition emit (ev : event) : M unit := fun tr => (Ok tt, tr ++ [ev]).
Definition lift {A} (r : result A) : M A := fun tr => (r, tr).

Definition bind {A B} (c : M A) (k : A -> M B) : M B :=
  fun tr =>
    match c tr with
    | (Ok a, tr') => k a tr'
    | (Raise e, tr') => (Raise e, tr')
    end.

Notation "'let*' x ':=' c 'in' k" := (bind c (fun x => k))
  (at level 10, x pattern, c at level 100, k at level 200).

Definition logger_warning (msg : string) : M unit := emit (EvLog WARNING msg).
Definition logger_debug (msg : string) : M unit := emit (EvLog DEBUG msg).

(** Run a computation from the empty trace. *)
Definition run {A} (c : M A) : result A * trace := c [].

(** A computation is framed when it only appends to the trace and its
    outcome does not depend on what the trace already holds. *)
Definition framed {A} (c : M A) : Prop :=
  forall tr, c tr = (fst (c []), tr ++ snd (c [])).

(** ** Part converter and history translator *)

Section Translation.

(** The media loader [_url_to_pil]: it reaches the network, the file system
    and PIL, so its outcome on a source is taken as given.  It raises
    [ValueError] or [ImportError] when it fails. *)
Variable _url_to_pil : pyval -> result image.

Context `{!PyStr pyval}.

Definition _is_openai_parts_format (part : dict) : bool :=
  match part !! "type" with Some _ => true | None => false end.

Definition _is_vision_model (model : string) : bool :=
  str_contains "vision" model.

Definition _is_b64 (s : string) : bool := String.prefix "data:image" s.

(** [v == s] for a string literal [s]. *)
Definition eq_str (v : pyval) (s : string) : bool :=
  match v with VStr s' => String.eqb s' s | _ => false end.

(** [d[key]], raising [KeyError] when the key is missing. *)
Definition getitem (d : dict) (key : string) : M pyval :=
  match d !! key with
  | Some v => ret v
  | None => raise (Exn KeyError key None)
  end.

Definition load_image (src : pyval) : M image :=
  let* _ := emit (EvLoadImage src) in lift (_url_to_pil src).

(** One iteration of the loop of [_convert_to_parts]: the dict that is
    appended to [parts]. *)
Definition convert_part (part : pyval) : M dict :=
  match part with
  | VStr s => ret {[ "text" := VStr s ]}
  | VDict d =>
      if _is_openai_parts_format d then
        let* ty := getitem d "type" in
        if eq_str ty "text" then
          let* t := getitem d "text" in
          ret {[ "text" := t ]}
        else if eq_str ty "image_url" then
          let* img_url := getitem d "image_url" in
          let* img_url :=
            match img_url with
            | VDict u =>
                match u !! "url" with
                | None =>
                    raise (Exn ValueError
                             ("Unrecognized message image format: "
                              +:+ py_str img_url) None)
                | Some url => ret url
                end
            | _ => ret img_url
            end in
          let* img := load_image img_url in
          ret {[ "inline_data" := VImage img ]}
        else
          raise (Exn ValueError
                   ("Unrecognized message part type: " +:+ py_str ty) None)
      else
        let* _ := logger_warning
          "Unrecognized message part format. Assuming it's a text part." in
        ret d
  | _ =>
      raise (Exn ChatGoogleGenerativeAIError
               "Gemini only supports text and inline_data parts." None)
  end.

Fixpoint convert_loop (content : list pyval) (parts : list dict)
  : M (list dict) :=
  match content with
  | [] => ret parts
  | part :: content' =>
      let* p := convert_part part in
      convert_loop content' (parts ++ [p])
  end.

Definition _convert_to_parts (raw_content : content) : M (list dict) :=
  let* _ := emit (EvConvertParts raw_content) in
  let content :=
    match raw_content with
    | CStr s => [VStr s]
    | CList l => l
    end in
  convert_loop content [].

(** The parts a content converts to (or the error it raises), from the
    empty trace. *)
Definition converted (raw : content) : result (list dict) :=
  fst (run (_convert_to_parts raw)).

Definition system_not_supported : string :=
  "SystemMessages are not yet supported!" +:+ nl +:+ nl +:+
  "To automatically convert the leading SystemMessage to a HumanMessage,"
  +:+ nl +:+
  "set  `convert_system_message_to_human` to True. Example:" +:+ nl +:+ nl
  +:+ "llm = ChatGoogleGenerativeAI(model=" +:+ dq +:+ "gemini-pro" +:+ dq
  +:+ ", convert_system_message_to_human=True)" +:+ nl.

Definition is_system (m : message) : bool :=
  match msg_kind_of m with SystemMessage => true | _ => false end.
Definition is_ai (m : message) : bool :=
  match msg_kind_of m with AIMessage => true | _ => false end.
Definition is_human (m : message) : bool :=
  match msg_kind_of m with HumanMessage => true | _ => false end.

Definition unexpected_message (m : message) (i : nat) : exn :=
  Exn ValueError
    ("Unexpected message with type " +:+ type_repr (msg_kind_of m)
     +:+ " at the position " +:+ pretty i +:+ ".") None.

Definition system_before_ai : exn :=
  Exn ValueError
    ("SystemMessage should be followed by a HumanMessage and "
     +:+ "not by AIMessage.") None.

(** The state of the loop of [_parse_chat_history]: the variables
    [raw_system_message] and [messages]. *)
Definition loop_state : Type := option message * list Turn.

(** The body of the loop, for the message at index [i].  A message object
    is always truthy, so [if raw_system_message:] tests for [None]. *)
Definition parse_body (convert_system_message_to_human : bool) (i : nat)
    (message : message) (st : loop_state) : M loop_state :=
  let '(raw_system_message, messages) := st in
  if (i =? 0)%nat && is_system message
     && negb convert_system_message_to_human
  then raise (Exn ValueError system_not_supported None)
  else if (i =? 0)%nat && is_system message
  then ret (Some message, messages)
  else
    let* role :=
      if is_ai message then ret "model"
      else if is_human message then ret "user"
      else raise (unexpected_message message i) in
    let* parts := _convert_to_parts (msg_content message) in
    let* parts :=
      match raw_system_message with
      | Some sys =>
          if String.eqb role "model" then raise system_before_ai
          else
            let* sys_parts := _convert_to_parts (msg_content sys) in
            ret (sys_parts ++ parts)
      | None => ret parts
      end in
    ret (None, messages ++ [mkTurn role parts]).

(** [for i, message in enumerate(input_messages)], from index [i] on. *)
Fixpoint parse_loop (convert_system_message_to_human : bool) (i : nat)
    (input_messages : list message) (st : loop_state) : M loop_state :=
  match input_messages with
  | [] => ret st
  | message :: rest =>
      let* st := parse_body convert_system_message_to_human i message st in
      parse_loop convert_system_message_to_human (S i) rest st
  end.

Definition _parse_chat_history (input_messages : list message)
    (convert_system_message_to_human : bool) : M (list Turn) :=
  let* st :=
    parse_loop convert_system_message_to_human 0 input_messages (None, []) in
  ret (snd st).

(** *** Vocabulary for the properties of the translation *)

(** A turn carries the role its message maps to. *)
Definition role_matches (m : message) (t : Turn) : Prop :=
  (is_ai m = true /\ role t = "model") \/
  (is_human m = true /\ role t = "user").

(** A turn is the translation of its message alone: the mapped role and
    exactly the parts its content converts to. *)
Definition translates (m : message) (t : Turn) : Prop :=
  role_matches m t /\ converted (msg_content m) = Ok (parts t).

(** A message the loop accepts on its own. *)
Definition translatable (m : message) : Prop :=
  (is_ai m = true \/ is_human m = true) /\
  is_ok (converted (msg_content m)) = true.

(** The messages that become turns: all but a leading system message. *)
Definition turn_messages (input_messages : list message) : list message :=
  match input_messages with
  | m :: rest => if is_system m then rest else input_messages
  | [] => []
  end.

End Translation.

(** The events that reach outside the process. *)
Definition network_event (ev : event) : bool :=
  match ev with
  | EvCall _ | EvLoadImage _ => true
  | _ => false
  end.

(** The seconds slept, in order. *)
Definition sleeps (tr : trace) : list Z :=
  omap (fun ev => match ev with EvSleep s => Some s | _ => None end) tr.

(** The attempts made, in order. *)
Definition calls (tr : trace) : list nat :=
  omap (fun ev => match ev with EvCall k => Some k | _ => None end) tr.

(** A media loader that knows no image, and a printer, to run examples. *)
Definition no_image : pyval -> result image :=
  fun _ => Raise (Exn ValueError
                    "Unable to process the provided image source" None).
#[global] Instance plain_str : PyStr pyval :=
  fun v => match v with VStr s => s | _ => "" end.

(** ** Response translator *)

(** A [Blob] of inline data; a proto message is falsy when no field is set. *)
Record Blob := mkBlob { mime_type : string; blob_data : string }.

(** A response [Part]: the attributes [text] and [inline_data]. *)
Record Part := mkPart { text : option string; inline_data : option Blob }.

Definition blob_truthy (b : option Blob) : bool :=
  match b with
  | Some b => negb (String.eqb (mime_type b) "" && String.eqb (blob_data b) "")
  | None => false
  end.

Record FinishReason := mkFinishReason { fr_value : Z; fr_name : string }.
Record SafetyRating := mkSafetyRating { category : string; probability : string }.
Record PromptFeedback :=
  mkPromptFeedback { block_reason : Z; feedback_ratings : list SafetyRating }.

Record Content := mkContent { content_role : string; content_parts : list Part }.
Record Candidate := mkCandidate {
  candidate_content : Content;
  finish_reason : option FinishReason;
  safety_ratings : list SafetyRating }.
Record GenerateContentResponse := mkResponse {
  prompt_feedback : option PromptFeedback;
  candidates : list Candidate }.

Definition finish_reason_truthy (f : option FinishReason) : bool :=
  match f with Some f => negb (fr_value f =? 0)%Z | None => false end.

Definition feedback_truthy (f : option PromptFeedback) : bool :=
  match f with
  | Some f =>
      negb ((block_reason f =? 0)%Z
            && match feedback_ratings f with [] => true | _ => false end)
  | None => false
  end.

(** The messages the translator builds: the class ([chunk] for the
    [...Chunk] variants), the content and, for [ChatMessage], the role. *)
Record BaseMessage := mkBaseMessage {
  bm_kind : msg_kind; bm_chunk : bool;
  bm_content : content; bm_role : option string }.

Record ChatGeneration := mkChatGeneration {
  gen_message : BaseMessage; generation_info : dict; gen_chunk : bool }.

Record ChatResult := mkChatResult {
  generations : list ChatGeneration; llm_output : dict }.

(** The constructors [_response_to_result] takes as keyword arguments. *)
Record result_types := mkResultTypes {
  ai_msg_t : content -> BaseMessage;
  human_msg_t : content -> BaseMessage;
  chat_msg_t : content -> string -> BaseMessage;
  generation_t : BaseMessage -> dict -> ChatGeneration }.

Definition final_types : result_types :=
  {| ai_msg_t := fun c => mkBaseMessage AIMessage false c None;
     human_msg_t := fun c => mkBaseMessage HumanMessage false c None;
     chat_msg_t := fun c r =>
       mkBaseMessage (OtherMessage "langchain_core.messages.chat.ChatMessage")
         false c (Some r);
     generation_t := fun m info => mkChatGeneration m info false |}.

Definition chunk_types : result_types :=
  {| ai_msg_t := fun c => mkBaseMessage AIMessage true c None;
     human_msg_t := fun c => mkBaseMessage HumanMessage true c None;
     chat_msg_t := fun c r =>
       mkBaseMessage
         (OtherMessage "langchain_core.messages.chat.ChatMessageChunk")
         true c (Some r);
     generation_t := fun m info => mkChatGeneration m info true |}.

Section Response.

Context `{!PyStr Part} `{!PyStr (option PromptFeedback)} `{!PyStr exn}.

(** [type(x).to_dict(x)] of the proto objects; the one for the prompt
    feedback is called inside a [try]. *)
Variable feedback_to_dict : PromptFeedback -> result pyval.
Variable rating_to_dict : SafetyRating -> pyval.

Definition text_descriptor (t : string) : pyval :=
  VDict {[ "type" := VStr "text"; "text" := VStr t ]}.

Definition unexpected_part (part : Part) : exn :=
  Exn ChatGoogleGenerativeAIError
    ("Unexpected part type. " +:+ py_str part) None.

(** The [for] loop of [_parts_to_content]. *)
Fixpoint parts_loop (parts : list Part) (messages : list pyval)
  : M (list pyval) :=
  match parts with
  | [] => ret messages
  | part :: parts' =>
      match text part with
      | Some t => parts_loop parts' (messages ++ [text_descriptor t])
      | None => raise (unexpected_part part)
      end
  end.

Definition single_text (parts : list Part) : option string :=
  match parts with
  | [p] => if blob_truthy (inline_data p) then None else text p
  | _ => None
  end.

Definition _parts_to_content (parts : list Part) : M content :=
  match single_text parts with
  | Some t => ret (CStr t)
  | None =>
      match parts with
      | [] =>
          let* _ := logger_warning "Gemini produced an empty response." in
          ret (CStr "")
      | _ =>
          let* messages := parts_loop parts [] in
          ret (CList messages)
      end
  end.

Definition role_map (ts : result_types) (role : string)
  : option (content -> BaseMessage) :=
  if String.eqb role "model" then Some (ai_msg_t ts)
  else if String.eqb role "user" then Some (human_msg_t ts)
  else None.

(** The body of the loop over [response.candidates]. *)
Definition candidate_to_generation (ts : result_types) (candidate : Candidate)
  : M ChatGeneration :=
  let content := candidate_content candidate in
  let* parts_content := _parts_to_content (content_parts content) in
  let* msg :=
    match role_map ts (content_role content) with
    | None =>
        let* _ := logger_warning
          ("Unrecognized role: " +:+ content_role content
           +:+ ". Treating as a ChatMessage.") in
        ret (chat_msg_t ts parts_content (content_role content))
    | Some mk => ret (mk parts_content)
    end in
  let generation_info : dict := ∅ in
  let generation_info :=
    match finish_reason candidate with
    | Some f =>
        if finish_reason_truthy (Some f)
        then <[ "finish_reason" := VStr (fr_name f) ]> generation_info
        else generation_info
    | None => generation_info
    end in
  let generation_info :=
    match safety_ratings candidate with
    | [] => generation_info
    | ratings =>
        <[ "safety_ratings" := VList (map rating_to_dict ratings) ]>
          generation_info
    end in
  ret (generation_t ts msg generation_info).

Fixpoint candidates_loop (ts : result_types) (cs : list Candidate)
    (generations : list ChatGeneration) : M (list ChatGeneration) :=
  match cs with
  | [] => ret generations
  | candidate :: cs' =>
      let* g := candidate_to_generation ts candidate in
      candidates_loop ts cs' (generations ++ [g])
  end.

Definition _response_to_result (response : GenerateContentResponse)
    (ts : result_types) : M ChatResult :=
  let llm_output : dict := ∅ in
  let* llm_output :=
    match prompt_feedback response with
    | Some fb =>
        if feedback_truthy (Some fb) then
          match feedback_to_dict fb with
          | Ok d => ret (<[ "prompt_feedback" := d ]> llm_output)
          | Raise e =>
              if isinstance e Exception then
                let* _ := logger_debug
                  ("Unable to convert prompt_feedback to dict: "
                   +:+ py_str e) in
                ret llm_output
              else raise e
          end
        else ret llm_output
    | None => ret llm_output
    end in
  let* generations := candidates_loop ts (candidates response) [] in
  let* generations :=
    match candidates response with
    | [] =>
        let* _ := logger_warning
          ("Gemini produced an empty response. Continuing with empty message"
           +:+ nl +:+ "Feedback: " +:+ py_str (prompt_feedback response)) in
        ret [generation_t ts (ai_msg_t ts (CStr "")) ∅]
    | _ => ret generations
    end in
  ret (mkChatResult generations llm_output).

(** The record the translator logs for a response without candidates. *)
Definition empty_response_warning (response : GenerateContentResponse) : event :=
  EvLog WARNING
    ("Gemini produced an empty response. Continuing with empty message"
     +:+ nl +:+ "Feedback: " +:+ py_str (prompt_feedback response)).

End Response.

(** ** The retrying invoker *)

(** *** tenacity, as far as the decorator uses it *)

(** [stop_after_attempt(n)]: stop once the attempt number reaches [n]. *)
Definition stop_after_attempt (max_attempt_number attempt_number : nat) : bool :=
  (max_attempt_number <=? attempt_number)%nat.

(** [wait_exponential(multiplier, min, max)]: the wait after attempt [n] is
    [multiplier * 2 ** (n - 1)], clamped to [[max(0, min), max]]. *)
Definition wait_exponential (multiplier min max : Z) (attempt_number : nat) : Z :=
  Z.max (Z.max 0 min)
        (Z.min (multiplier * 2 ^ (Z.of_nat attempt_number - 1)) max).

(** [retry_if_exception_type(c)]: the attempt failed with an instance of [c]. *)
Definition retry_if_exception_type {A} (c : exc_class) (outcome : result A)
  : bool :=
  match outcome with
  | Raise e => isinstance e c
  | Ok _ => false
  end.

Record retry_policy := mkRetryPolicy {
  reraise : bool;
  stop : nat -> bool;
  wait : nat -> Z;
  retry : forall A, result A -> bool }.

Definition multiplier : Z := 2.
Definition min_seconds : Z := 1.
Definition max_seconds : Z := 60.
Definition max_retries : nat := 10.

Definition _create_retry_decorator : retry_policy :=
  {| reraise := true;
     stop := stop_after_attempt max_retries;
     wait := wait_exponential multiplier min_seconds max_seconds;
     retry := fun A outcome =>
       retry_if_exception_type ResourceExhausted outcome
       || retry_if_exception_type ServiceUnavailable outcome
       || retry_if_exception_type GoogleAPIError outcome |}.

Section Retry.

Context `{!PyStr exn}.
Context {R : Type}.

(** The text [before_sleep_log] writes before a wait. *)
Variable before_sleep_message : nat -> Z -> string.

(** [Retrying.__call__]: the [while True] loop around the decorated
    function.  [fn n] is the [n]-th call of the function; the loop is cut
    off after [fuel] iterations, giving [None]. *)
Fixpoint retrying {A} (policy : retry_policy) (fuel : nat)
    (attempt_number : nat) (fn : nat -> M A) (tr : trace)
  : option (result A * trace) :=
  match fuel with
  | O => None
  | S fuel' =>
      let '(outcome, tr) := fn attempt_number tr in
      if negb (retry policy A outcome) then Some (outcome, tr)
      else if stop policy attempt_number then
        match outcome with
        | Raise e =>
            if reraise policy then Some (Raise e, tr)
            else Some (Raise (Exn RetryError "" (Some e)), tr)
        | Ok _ => Some (Raise (Exn RetryError "" None), tr)
        end
      else
        let sleep := wait policy attempt_number in
        let tr := tr ++ [EvLog WARNING
                           (before_sleep_message attempt_number sleep)] in
        let tr := tr ++ [EvSleep sleep] in
        retrying policy fuel' (S attempt_number) fn tr
  end.

(** A decorated function whose [k]-th call has the outcome [o k]. *)
Definition attempt_of {A} (o : nat -> result A) (k : nat) : M A :=
  let* _ := emit (EvCall k) in lift (o k).

(** The outcome of the [n]-th invocation of the backend's generation
    method (with the keyword arguments of the call, which do not change
    between attempts). *)
Variable generation_method : nat -> result R.

Definition location_not_supported : string :=
  "Your location is not supported by google-generativeai "
  +:+ "at the moment. Try to use ChatVertexAI LLM from "
  +:+ "langchain_google_vertexai.".

Definition invalid_argument (e : exn) : exn :=
  Exn ChatGoogleGenerativeAIError
    ("Invalid argument provided to Gemini: " +:+ py_str e) (Some e).

(** The [try] statement of the inner function of [_chat_with_retry], as a
    map on the outcome of the generation method; a Python function that
    ends without [return] gives [None]. *)
Definition chat_handlers (outcome : result R) : result (option R) :=
  match outcome with
  | Ok r => Ok (Some r)
  | Raise exc =>
      if isinstance exc FailedPrecondition then
        if str_contains "location is not supported" (exn_message exc)
        then Raise (Exn ValueError location_not_supported None)
        else Ok None
      else if isinstance exc InvalidArgument then
        Raise (invalid_argument exc)
      else if isinstance exc Exception then Raise exc
      else Raise exc
  end.

(** The decorated inner function of [_chat_with_retry]. *)
Definition chat_attempt : nat -> M (option R) :=
  attempt_of (fun attempt => chat_handlers (generation_method attempt)).

Definition _chat_with_retry (fuel : nat) (tr : trace)
  : option (result (option R) * trace) :=
  retrying _create_retry_decorator fuel 1 chat_attempt tr.

(** The [try] statement of the inner coroutine of [_achat_with_retry]. *)
Definition achat_handlers (outcome : result R) : result (option R) :=
  match outcome with
  | Ok r => Ok (Some r)
  | Raise e =>
      if isinstance e InvalidArgument then Raise (invalid_argument e)
      else if isinstance e Exception then Raise e
      else Raise e
  end.

(** The decorated inner coroutine of [_achat_with_retry]. *)
Definition achat_attempt : nat -> M (option R) :=
  attempt_of (fun attempt => achat_handlers (generation_method attempt)).

Definition _achat_with_retry (fuel : nat) (tr : trace)
  : option (result (option R) * trace) :=
  retrying _create_retry_decorator fuel 1 achat_attempt tr.

(** *** Vocabulary for the properties of the invoker *)

(** What the loop adds to the trace around attempt [k] when it goes on to
    [more] further attempts: the call, then the warning and the sleep
    before each further call. *)
Fixpoint schedule (policy : retry_policy) (k more : nat) : trace :=
  match more with
  | O => [EvCall k]
  | S more' =>
      EvCall k
      :: EvLog WARNING (before_sleep_message k (wait policy k))
      :: EvSleep (wait policy k)
      :: schedule policy (S k) more'
  end.

End Retry.

(** ** The chat model *)

(** The fields of [ChatGoogleGenerativeAI] (and the [values] dict its
    validator receives). *)
Record ChatGoogleGenerativeAI := mkChatModel {
  model : string;
  max_output_tokens : option Z;
  google_api_key : option string;
  temperature : option float;
  top_k : option Z;
  top_p : option float;
  n : Z;
  convert_system_message_to_human : bool;
  transport : option string;
  client : option string }.

(** [get_from_dict_or_env(values, "google_api_key", "GOOGLE_API_KEY")]. *)
Definition get_from_dict_or_env (values : ChatGoogleGenerativeAI)
    (environ : gmap string string) : M string :=
  match google_api_key values with
  | Some k => if String.eqb k "" then
                match environ !! "GOOGLE_API_KEY" with
                | Some k => ret k
                | None => raise (Exn ValueError "Did not find google_api_key" None)
                end
              else ret k
  | None =>
      match environ !! "GOOGLE_API_KEY" with
      | Some k => ret k
      | None => raise (Exn ValueError "Did not find google_api_key" None)
      end
  end.

(** [0 <= x <= 1] on Python floats. *)
Definition in_unit_interval (x : float) : bool :=
  PrimFloat.leb 0 x && PrimFloat.leb x 1.

Definition validate_environment (values : ChatGoogleGenerativeAI)
    (environ : gmap string string) : M ChatGoogleGenerativeAI :=
  let* api_key := get_from_dict_or_env values environ in
  let* _ := emit (EvConfigure api_key (transport values)) in
  let* _ :=
    match temperature values with
    | Some t =>
        if negb (in_unit_interval t)
        then raise (Exn ValueError
                      "temperature must be in the range [0.0, 1.0]" None)
        else ret tt
    | None => ret tt
    end in
  let* _ :=
    match top_p values with
    | Some p =>
        if negb (in_unit_interval p)
        then raise (Exn ValueError "top_p must be in the range [0.0, 1.0]" None)
        else ret tt
    | None => ret tt
    end in
  let* _ :=
    match top_k values with
    | Some k =>
        if (k <=? 0)%Z
        then raise (Exn ValueError "top_k must be positive" None)
        else ret tt
    | None => ret tt
    end in
  let model := model values in
  let* _ := emit (EvNewModel model) in
  ret (mkChatModel model (max_output_tokens values) (google_api_key values)
         (temperature values) (top_k values) (top_p values) (n values)
         (convert_system_message_to_human values) (transport values)
         (Some model)).

(** [x is None or 0 <= x <= 1]. *)
Definition valid_unit (x : option float) : bool :=
  match x with Some t => in_unit_interval t | None => true end.

(** [k is None or k > 0]. *)
Definition valid_top_k (k : option Z) : bool :=
  match k with Some k => negb (k <=? 0)%Z | None => true end.

(** The model [gemini-pro] with an API key and the given temperature. *)
Definition with_temperature (t : float) : ChatGoogleGenerativeAI :=
  mkChatModel "gemini-pro" None (Some "key") (Some t) None None 1 false
    None None.

Section Orchestrator.

Variable _url_to_pil : pyval -> result image.
Context `{!PyStr pyval} `{!PyStr Part} `{!PyStr (option PromptFeedback)}
        `{!PyStr exn}.
Variable feedback_to_dict : PromptFeedback -> result pyval.
Variable rating_to_dict : SafetyRating -> pyval.
Variable before_sleep_message : nat -> Z -> string.

(** Keep the entries whose value is not [None]. *)
Definition not_none (kvs : list (string * option pyval)) : dict :=
  list_to_map (omap (fun kv => match kv.2 with
                               | Some v => Some (kv.1, v)
                               | None => None
                               end) kvs).

Definition _prepare_params (self : ChatGoogleGenerativeAI)
    (stop : option (list string)) (kwargs : dict) : M dict :=
  let gen_config : dict :=
    not_none
      [ ("candidate_count", Some (VInt (n self)));
        ("temperature", VFloat <$> temperature self);
        ("stop_sequences", (fun l => VList (VStr <$> l)) <$> stop);
        ("max_output_tokens", VInt <$> max_output_tokens self);
        ("top_k", VInt <$> top_k self);
        ("top_p", VFloat <$> top_p self) ] in
  match kwargs !! "generation_config" with
  | Some overrides =>
      match overrides with
      | VDict o =>
          ret (<[ "generation_config" := VDict (o ∪ gen_config) ]>
                 (delete "generation_config" kwargs))
      | _ => raise (Exn TypeError "argument is not a mapping" None)
      end
  | None => ret (<[ "generation_config" := VDict gen_config ]> kwargs)
  end.

Definition pop_from_empty_list : exn :=
  Exn IndexError "pop from empty list" None.

(** [history.pop()]: the last element and the list without it. *)
Definition list_pop {A} (l : list A) : M (A * list A) :=
  match last l with
  | Some x => ret (x, removelast l)
  | None => raise pop_from_empty_list
  end.

(** The chat session returned by [client.start_chat(history=history)]. *)
Record ChatSession := mkChatSession { session_history : list Turn }.

Definition _prepare_chat (self : ChatGoogleGenerativeAI)
    (messages : list message) (stop : option (list string)) (kwargs : dict)
  : M (dict * ChatSession * Turn) :=
  let* params := _prepare_params self stop kwargs in
  let* history :=
    _parse_chat_history _url_to_pil messages
      (convert_system_message_to_human self) in
  let* popped := list_pop history in
  let '(message, history) := popped in
  let* _ := emit (EvStartChat history) in
  ret (params, mkChatSession history, message).

(** Attribute access on the value the invoker returned, which is [None]
    when the decorated function ended without [return]. *)
Definition the_response {R} (r : option R) : M R :=
  match r with
  | Some r => ret r
  | None => raise (Exn AttributeError
                     "'NoneType' object has no attribute" None)
  end.

(** [send k] is the outcome of the [k]-th call of [chat.send_message]
    (or of [chat.send_message_async]) for this request. *)
Definition _generate (self : ChatGoogleGenerativeAI)
    (messages : list message) (stop : option (list string))
    (send : nat -> result GenerateContentResponse)
    (fuel : nat) (tr : trace) : option (result ChatResult * trace) :=
  match _prepare_chat self messages stop ∅ tr with
  | (Raise e, tr) => Some (Raise e, tr)
  | (Ok _, tr) =>
      match _chat_with_retry before_sleep_message send fuel tr with
      | None => None
      | Some (Raise e, tr) => Some (Raise e, tr)
      | Some (Ok response, tr) =>
          Some ((let* response := the_response response in
                 _response_to_result feedback_to_dict rating_to_dict
                   response final_types) tr)
      end
  end.

Definition _agenerate (self : ChatGoogleGenerativeAI)
    (messages : list message) (stop : option (list string))
    (send_async : nat -> result GenerateContentResponse)
    (fuel : nat) (tr : trace) : option (result ChatResult * trace) :=
  match _prepare_chat self messages stop ∅ tr with
  | (Raise e, tr) => Some (Raise e, tr)
  | (Ok _, tr) =>
      match _achat_with_retry before_sleep_message send_async fuel tr with
      | None => None
      | Some (Raise e, tr) => Some (Raise e, tr)
      | Some (Ok response, tr) =>
          Some ((let* response := the_response response in
                 _response_to_result feedback_to_dict rating_to_dict
                   response final_types) tr)
      end
  end.

(** [gen.text]: the message content when it is a string. *)
Definition generation_text (g : ChatGeneration) : string :=
  match bm_content (gen_message g) with
  | CStr s => s
  | CList _ => ""
  end.

(** The body of the generator [_stream], run to exhaustion: the chunks
    it yields. *)
Fixpoint stream_loop (run_manager : bool)
    (response : list GenerateContentResponse)
    (yielded : list ChatGeneration) : M (list ChatGeneration) :=
  match response with
  | [] => ret yielded
  | chunk :: response' =>
      let* _chat_result :=
        _response_to_result feedback_to_dict rating_to_dict
          chunk chunk_types in
      let* gen :=
        match generations _chat_result with
        | g :: _ => ret g
        | [] => raise (Exn IndexError "list index out of range" None)
        end in
      let* _ :=
        if run_manager then emit (EvNewToken (generation_text gen))
        else ret tt in
      stream_loop run_manager response' (yielded ++ [gen])
  end.

Definition _stream (self : ChatGoogleGenerativeAI)
    (messages : list message) (stop : option (list string))
    (run_manager : bool)
    (send : nat -> result (list GenerateContentResponse))
    (fuel : nat) (tr : trace)
  : option (result (list ChatGeneration) * trace) :=
  match _prepare_chat self messages stop ∅ tr with
  | (Raise e, tr) => Some (Raise e, tr)
  | (Ok _, tr) =>
      match _chat_with_retry before_sleep_message send fuel tr with
      | None => None
      | Some (Raise e, tr) => Some (Raise e, tr)
      | Some (Ok response, tr) =>
          Some ((let* response :=
                   match response with
                   | Some r => ret r
                   | None => raise (Exn TypeError
                               "'NoneType' object is not iterable" None)
                   end in
                 stream_loop run_manager response []) tr)
      end
  end.

End Orchestrator.

(** Printers and a [before_sleep] text, to run examples. *)
#[global] Instance part_str : PyStr Part := fun p => default "" (text p).
#[global] Instance feedback_str : PyStr (option PromptFeedback) := fun _ => "".
#[global] Instance exn_str : PyStr exn := exn_message.
Definition retry_message : nat -> Z -> string :=
  fun k s => "Retrying in " +:+ pretty s +:+ " seconds".

(** The backend's answer to a request from an unsupported region. *)
Definition location_error : exn :=
  Exn FailedPrecondition "User location is not supported for the API use." None.

(** The backend's answer to a malformed request. *)
Definition invalid_error : exn :=
  Exn InvalidArgument "Request contains an invalid argument." None.

(** An error that is none of the backend's. *)
Definition type_error : exn :=
  Exn TypeError "send_message() got an unexpected keyword argument" None.

(** Another failed precondition of the backend. *)
Definition disabled_error : exn :=
  Exn FailedPrecondition
    "Generative Language API has not been used in this project." None.

(** ** Further vocabulary *)

Section PartVocabulary.

Variable _url_to_pil : pyval -> result image.
Context `{!PyStr pyval}.

(** What one element of a content converts to, from the empty trace. *)
Definition part_outcome (part : pyval) : result dict :=
  fst (run (convert_part _url_to_pil part)).

End PartVocabulary.

(** A descriptor [{"type": "image_url", ...}]. *)
Definition is_image_descriptor (part : pyval) : bool :=
  match part with
  | VDict d =>
      match d !! "type" with
      | Some ty => eq_str ty "image_url"
      | None => false
      end
  | _ => false
  end.

(** The sources handed to the media loader, in order. *)
Definition image_loads (tr : trace) : list pyval :=
  omap (fun ev => match ev with EvLoadImage src => Some src | _ => None end) tr.

(** The warnings logged, in order. *)
Definition warnings (tr : trace) : list string :=
  omap (fun ev => match ev with EvLog WARNING msg => Some msg | _ => None end)
       tr.

(** The text part [{"text": s}]. *)
Definition text_part (s : string) : dict := {[ "text" := VStr s ]}.

Definition assume_text_warning : string :=
  "Unrecognized message part format. Assuming it's a text part.".

(** The conversation starts with a system message. *)
Definition leading_system (input_messages : list message) : bool :=
  match input_messages with
  | m :: _ => is_system m
  | [] => false
  end.

Section ResponseVocabulary.

Context `{!PyStr Part}.

(** The content a list of response parts maps to (or the error), from the
    empty trace. *)
Definition parts_content (parts : list Part) : result content :=
  fst (run (_parts_to_content parts)).

End ResponseVocabulary.

(** The chunk-typed counterpart of a message built with [final_types]. *)
Definition as_chunk_message (m : BaseMessage) : BaseMessage :=
  mkBaseMessage
    match bm_kind m with
    | OtherMessage _ =>
        OtherMessage "langchain_core.messages.chat.ChatMessageChunk"
    | k => k
    end
    true (bm_content m) (bm_role m).

Definition as_chunk (g : ChatGeneration) : ChatGeneration :=
  mkChatGeneration (as_chunk_message (gen_message g)) (generation_info g) true.



Section ResultVocabulary.

Variable feedback_to_dict : PromptFeedback -> result pyval.

(** The [llm_output] of a response: its prompt feedback as a dict when
    there is one and it serialises, nothing otherwise. *)
Definition feedback_output (response : GenerateContentResponse) : dict :=
  match prompt_feedback response with
  | Some fb =>
      if feedback_truthy (Some fb) then
        match feedback_to_dict fb with
        | Ok d => {[ "prompt_feedback" := d ]}
        | Raise _ => ∅
        end
      else ∅
  | None => ∅
  end.

End ResultVocabulary.

(** The message class [final_types] picks for a candidate's role. *)
Definition final_kind (role : string) : msg_kind :=
  if String.eqb role "model" then AIMessage
  else if String.eqb role "user" then HumanMessage
  else OtherMessage "langchain_core.messages.chat.ChatMessage".

Definition recognized_role (role : string) : bool :=
  String.eqb role "model" || String.eqb role "user".

(** The classes the backend raises when it is out of capacity. *)
Definition capacity_error (e : exn) : Prop :=
  exn_class e = ResourceExhausted \/ exn_class e = ServiceUnavailable.

(** Seconds slept in all. *)
Definition total_sleep (tr : trace) : Z := foldr Z.add 0%Z (sleeps tr).

(** The generation parameters configured on the model, without the unset
    ones: the first dict [_prepare_params] builds. *)
Definition default_config (self : ChatGoogleGenerativeAI)
    (stop : option (list string)) : dict :=
  not_none
    [ ("candidate_count", Some (VInt (n self)));
      ("temperature", VFloat <$> temperature self);
      ("stop_sequences", (fun l => VList (VStr <$> l)) <$> stop);
      ("max_output_tokens", VInt <$> max_output_tokens self);
      ("top_k", VInt <$> top_k self);
      ("top_p", VFloat <$> top_p self) ].

Definition config_keys : list string :=
  [ "candidate_count"; "temperature"; "stop_sequences"; "max_output_tokens";
    "top_k"; "top_p" ].

Section AsyncStream.

Variable _url_to_pil : pyval -> result image.
Context `{!PyStr pyval} `{!PyStr Part} `{!PyStr (option PromptFeedback)}
        `{!PyStr exn}.
Variable feedback_to_dict : PromptFeedback -> result pyval.
Variable rating_to_dict : SafetyRating -> pyval.
Variable before_sleep_message : nat -> Z -> string.

(** The async generator [_astream], run to exhaustion: the same loop body
    as [_stream] around the asynchronous invoker. *)
Definition _astream (self : ChatGoogleGenerativeAI)
    (messages : list message) (stop : option (list string))
    (run_manager : bool)
    (send_async : nat -> result (list GenerateContentResponse))
    (fuel : nat) (tr : trace)
  : option (result (list ChatGeneration) * trace) :=
  match _prepare_chat _url_to_pil self messages stop ∅ tr with
  | (Raise e, tr) => Some (Raise e, tr)
  | (Ok _, tr) =>
      match _achat_with_retry before_sleep_message send_async fuel tr with
      | None => None
      | Some (Raise e, tr) => Some (Raise e, tr)
      | Some (Ok response, tr) =>
          Some ((let* response :=
                   match response with
                   | Some r => ret r
                   | None => raise (Exn TypeError
                               "'NoneType' object is not iterable" None)
                   end in
                 stream_loop feedback_to_dict rating_to_dict run_manager
                   response []) tr)
      end
  end.

End AsyncStream.


(** Sample data to run the examples. *)
Definition hello_candidate : Candidate :=
  mkCandidate (mkContent "model" [mkPart (Some "Hello") None]) None [].

Definition hello_response : GenerateContentResponse :=
  mkResponse None [hello_candidate].

Definition hello_generation : ChatGeneration :=
  mkChatGeneration (mkBaseMessage AIMessage false (CStr "Hello") None) ∅ false.

Definition no_feedback_dict : PromptFeedback -> result pyval :=
  fun _ => Ok VNone.

Definition no_rating_dict : SafetyRating -> pyval := fun _ => VNone.

Definition hi_messages : list message := [Message HumanMessage (CStr "Hi")].

Definition hi_turn : Turn := mkTurn "user" [text_part "Hi"].

(** A backend that is out of quota once and answers then. *)
Definition busy_once : nat -> result unit :=
  fun j => if (j =? 1)%nat
           then Raise (Exn ResourceExhausted "quota" None) else Ok tt.

(** A model without an API key. *)
Definition keyless_model : ChatGoogleGenerativeAI :=
  mkChatModel "gemini-pro" None None None None None 1 false None None.


Section StreamVocabulary.

Context `{!PyStr Part} `{!PyStr (option PromptFeedback)} `{!PyStr exn}.
Variable feedback_to_dict : PromptFeedback -> result pyval.
Variable rating_to_dict : SafetyRating -> pyval.


End StreamVocabulary.



(** * Properties *)

(** ** The trace monad *)

Lemma bind_ok {A B} (c : M A) (k : A -> M B) tr a tr' :
  c tr = (Ok a, tr') -> bind c k tr = k a tr'.
Proof. intros H. unfold bind. now rewrite H. Qed.

Lemma bind_raise {A B} (c : M A) (k : A -> M B) tr e tr' :
  c tr = (Raise e, tr') -> bind c k tr = (Raise e, tr').
Proof. intros H. unfold bind. now rewrite H. Qed.

Lemma bind_inv_ok {A B} (c : M A) (k : A -> M B) tr b tr2 :
  bind c k tr = (Ok b, tr2) ->
  exists a tr1, c tr = (Ok a, tr1) /\ k a tr1 = (Ok b, tr2).
Proof.
  unfold bind. destruct (c tr) as [[a|e] tr1]; intros H.
  - now exists a, tr1.
  - discriminate.
Qed.

Lemma framed_ret {A} (a : A) : framed (ret a).
Proof. intros tr. cbn. now rewrite app_nil_r. Qed.

Lemma framed_raise {A} (e : exn) : framed (@raise A e).
Proof. intros tr. cbn. now rewrite app_nil_r. Qed.

Lemma framed_lift {A} (r : result A) : framed (lift r).
Proof. intros tr. cbn. now rewrite app_nil_r. Qed.

Lemma framed_emit ev : framed (emit ev).
Proof. intros tr. reflexivity. Qed.

Lemma framed_bind {A B} (c : M A) (k : A -> M B) :
  framed c -> (forall a, framed (k a)) -> framed (bind c k).
Proof.
  intros Hc Hk tr. unfold bind.
  rewrite (Hc tr). destruct (c []) as [[a|e] evs]; cbn.
  - rewrite (Hk a (tr ++ evs)), (Hk a evs). cbn. now rewrite app_assoc.
  - reflexivity.
Qed.

Create HintDb framed.
#[global] Hint Resolve framed_ret framed_raise framed_lift framed_emit
  framed_bind : framed.

Ltac framed := repeat (first [ progress eauto with framed
                             | apply framed_bind; [| intros ?]
                             | match goal with
                               | |- framed (match ?x with _ => _ end) =>
                                   destruct x
                               | |- framed (if ?b then _ else _) =>
                                   destruct b
                               end ]).

(** ** Part conversion *)

Section ConversionProps.

Variable _url_to_pil : pyval -> result image.
Context `{!PyStr pyval}.

Local Abbreviation convert := (_convert_to_parts _url_to_pil).

Lemma framed_convert_part part : framed (convert_part _url_to_pil part).
Proof. unfold convert_part, getitem, load_image, logger_warning. framed. Qed.

Lemma framed_convert_loop content parts :
  framed (convert_loop _url_to_pil content parts).
Proof.
  revert parts. induction content as [|p content IH]; intros parts; cbn.
  - framed.
  - apply framed_bind; [apply framed_convert_part | intros d; apply IH].
Qed.

Lemma framed_convert_to_parts raw : framed (convert raw).
Proof.
  unfold _convert_to_parts. apply framed_bind; [framed|].
  intros _. apply framed_convert_loop.
Qed.

Lemma convert_outcome raw tr :
  fst (convert raw tr) = converted _url_to_pil raw.
Proof. now rewrite (framed_convert_to_parts raw tr). Qed.

(** Every conversion is visible in the trace. *)
Lemma convert_traced raw tr :
  exists evs, snd (convert raw tr) = tr ++ EvConvertParts raw :: evs.
Proof.
  unfold _convert_to_parts, bind, emit.
  match goal with |- context [convert_loop ?f ?l ?a] =>
    rewrite (framed_convert_loop l a (tr ++ [EvConvertParts raw]));
    exists (snd (convert_loop f l a []));
    destruct (fst (convert_loop f l a []))
  end; cbn; rewrite <- app_assoc; reflexivity.
Qed.

Lemma converted_text s :
  converted _url_to_pil (CStr s) = Ok [{[ "text" := VStr s ]}].
Proof. reflexivity. Qed.

End ConversionProps.

(** ** History translation *)

#[local] Arguments _convert_to_parts : simpl never.

Section HistoryProps.

Variable _url_to_pil : pyval -> result image.
Context `{!PyStr pyval}.

Local Abbreviation convert := (_convert_to_parts _url_to_pil).
Local Abbreviation conv := (converted _url_to_pil).
Local Abbreviation parse := (_parse_chat_history _url_to_pil).
Local Abbreviation body := (parse_body _url_to_pil).
Local Abbreviation loop := (parse_loop _url_to_pil).

Lemma convert_ok_inv raw tr p tr' :
  convert raw tr = (Ok p, tr') -> conv raw = Ok p.
Proof. intros H. rewrite <- (convert_outcome _ raw tr). now rewrite H. Qed.

Lemma convert_ok raw tr p :
  conv raw = Ok p -> exists tr', convert raw tr = (Ok p, tr').
Proof.
  intros H. exists (snd (convert raw tr)).
  rewrite <- (convert_outcome _ raw tr) in H.
  destruct (convert raw tr) as [r tr']; cbn in *. now subst.
Qed.

Lemma convert_raise raw tr e :
  conv raw = Raise e -> exists tr', convert raw tr = (Raise e, tr').
Proof.
  intros H. exists (snd (convert raw tr)).
  rewrite <- (convert_outcome _ raw tr) in H.
  destruct (convert raw tr) as [r tr']; cbn in *. now subst.
Qed.

(** The loop over a concatenation runs the loop over the first list and
    continues with the second from the state reached. *)
Lemma parse_loop_app flag l1 l2 : forall i st tr,
  loop flag i (l1 ++ l2) st tr =
  bind (loop flag i l1 st)
       (fun st' => loop flag (i + length l1) l2 st') tr.
Proof.
  induction l1 as [|m l1 IH]; intros i st tr; cbn [app parse_loop length].
  - unfold bind, ret. now rewrite Nat.add_0_r.
  - unfold bind at 1 2 3.
    destruct (body flag i m st tr) as [[st1|e] tr1]; [|reflexivity].
    rewrite IH. unfold bind. now rewrite Nat.add_succ_r.
Qed.

(** What a successful iteration past index 0 leaves behind. *)
Lemma parse_body_ok flag i m raw acc tr st tr' :
  body flag (S i) m (raw, acc) tr = (Ok st, tr') ->
  exists t, st = (None, acc ++ [t]) /\ role_matches m t /\
            (raw = None -> conv (msg_content m) = Ok (parts t)).
Proof.
  unfold parse_body. cbn [Nat.eqb andb].
  unfold role_matches.
  destruct (is_ai m) eqn:Hai; [|destruct (is_human m) eqn:Hhu].
  - intros H. apply bind_inv_ok in H as (r & tr1 & Hr & H).
    inversion Hr; subst r tr1; clear Hr.
    apply bind_inv_ok in H as (p & tr2 & Hp & H).
    destruct raw as [sys|]; cbn in H; [discriminate|].
    inversion H; subst. eexists; split; [reflexivity|]. cbn.
    split; [now left|]. intros _. eapply convert_ok_inv, Hp.
  - intros H. apply bind_inv_ok in H as (r & tr1 & Hr & H).
    inversion Hr; subst r tr1; clear Hr.
    apply bind_inv_ok in H as (p & tr2 & Hp & H).
    apply bind_inv_ok in H as (p' & tr3 & Hp' & H).
    inversion H; subst. eexists; split; [reflexivity|]. cbn.
    split; [now right|]. intros ->. inversion Hp'; subst.
    eapply convert_ok_inv, Hp.
  - cbn. discriminate.
Qed.

Lemma parse_loop_ok flag l : forall i raw acc tr st tr',
  loop flag (S i) l (raw, acc) tr = (Ok st, tr') ->
  exists ts, snd st = acc ++ ts /\ Forall2 role_matches l ts /\
             (raw = None -> Forall2 (translates _url_to_pil) l ts).
Proof.
  induction l as [|m l IH]; intros i raw acc tr st tr' H;
    cbn [parse_loop] in H.
  - inversion H; subst. exists []. cbn. rewrite app_nil_r.
    repeat split; constructor.
  - apply bind_inv_ok in H as (st1 & tr1 & Hb & H).
    apply parse_body_ok in Hb as (t & -> & Hrole & Hparts).
    apply IH in H as (ts & -> & Hroles & Hplain).
    exists (t :: ts). rewrite <- app_assoc. split; [reflexivity|].
    split; [now constructor|].
    intros Hnone. constructor; [split; auto | auto].
Qed.

(** Messages that are translatable one by one are accepted by the loop. *)
Lemma parse_loop_total flag l : forall i acc tr,
  Forall (translatable _url_to_pil) l ->
  exists ts tr', loop flag (S i) l (None, acc) tr = (Ok (None, acc ++ ts), tr').
Proof.
  induction l as [|m l IH]; intros i acc tr Hall.
  - exists [], tr. cbn. now rewrite app_nil_r.
  - inversion Hall as [|? ? [Hkind Hconv] Hall']; subst.
    destruct (conv (msg_content m)) as [p|] eqn:Hp; [|discriminate].
    destruct (convert_ok _ tr _ Hp) as [tr1 Hc].
    set (r := if is_ai m then "model" else "user").
    destruct (IH (S i) (acc ++ [mkTurn r p]) tr1 Hall') as (ts & tr2 & Hl).
    exists (mkTurn r p :: ts), tr2.
    cbn [parse_loop]. unfold bind at 1.
    assert (Hb : body flag (S i) m (None, acc) tr
                 = (Ok (None, acc ++ [mkTurn r p]), tr1)).
    { unfold parse_body, r. cbn [Nat.eqb andb].
      destruct (is_ai m) eqn:Hai.
      - unfold bind, ret. now rewrite Hc.
      - destruct Hkind as [?|Hhu]; [discriminate|]. rewrite Hhu.
        unfold bind, ret. now rewrite Hc. }
    rewrite Hb, Hl. now rewrite <- app_assoc.
Qed.

Lemma human_not_ai m : is_human m = true -> is_ai m = false.
Proof. unfold is_human, is_ai. now destruct (msg_kind_of m). Qed.

Lemma ai_not_system m : is_ai m = true -> is_system m = false.
Proof. unfold is_system, is_ai. now destruct (msg_kind_of m). Qed.

Lemma human_not_system m : is_human m = true -> is_system m = false.
Proof. unfold is_system, is_human. now destruct (msg_kind_of m). Qed.

(** With the flag set, a leading system message is put in the loop state
    and the loop goes on from index 1. *)
Lemma parse_leading_system sys rest tr :
  is_system sys = true ->
  parse (sys :: rest) true tr =
  bind (loop true 1 rest (Some sys, [])) (fun st => ret (snd st)) tr.
Proof.
  intros Hsys. unfold _parse_chat_history. cbn [parse_loop].
  unfold bind at 2. unfold parse_body. cbn [Nat.eqb andb negb].
  now rewrite Hsys.
Qed.

(** The iteration that meets the held system message at a human message. *)
Lemma parse_body_merge i sys m acc tr :
  is_human m = true ->
  body true (S i) m (Some sys, acc) tr =
  (let* p := convert (msg_content m) in
   let* sp := convert (msg_content sys) in
   ret (None, acc ++ [mkTurn "user" (sp ++ p)])) tr.
Proof.
  intros Hhu. unfold parse_body. cbn [Nat.eqb andb].
  rewrite (human_not_ai _ Hhu), Hhu. unfold bind, ret. cbn.
  destruct (convert (msg_content m) tr) as [[p|e] tr1]; [|reflexivity].
  now destruct (convert (msg_content sys) tr1) as [[sp|e] tr2].
Qed.

(** C5: when the first message is a system message and
    [convert_system_message_to_human] is false, the translation raises the
    [ValueError] that explains the flag, and it does so with the trace
    untouched: no content has been handed to the part converter. *)
Theorem leading_system_rejected_before_conversion m rest tr :
  is_system m = true ->
  parse (m :: rest) false tr
  = (Raise (Exn ValueError system_not_supported None), tr).
Proof.
  intros Hsys. unfold _parse_chat_history. cbn [parse_loop].
  unfold bind, parse_body. cbn [Nat.eqb andb negb]. now rewrite Hsys.
Qed.

(** C1: with [convert_system_message_to_human] true, a leading system
    message is held aside and never becomes a turn of its own (alone it
    gives no turn at all); when a human message follows, the system parts
    come first in that turn, which has role "user", and every later turn is
    the translation of its own message only; when a model message follows,
    the translation raises; and [System("Be terse"), Human("Hi")] gives the
    single turn with the two text parts. *)
Theorem system_message_merged_once sys :
  is_system sys = true ->
  (forall tr, parse [sys] true tr = (Ok [], tr)) /\
  (forall m rest tr ts tr',
      is_human m = true ->
      parse (sys :: m :: rest) true tr = (Ok ts, tr') ->
      exists sp p later,
        conv (msg_content sys) = Ok sp /\ conv (msg_content m) = Ok p /\
        ts = mkTurn "user" (sp ++ p) :: later /\
        Forall2 (translates _url_to_pil) rest later) /\
  (forall m rest tr sp p,
      is_human m = true ->
      conv (msg_content sys) = Ok sp -> conv (msg_content m) = Ok p ->
      Forall (translatable _url_to_pil) rest ->
      exists later tr',
        parse (sys :: m :: rest) true tr
        = (Ok (mkTurn "user" (sp ++ p) :: later), tr') /\
        Forall2 (translates _url_to_pil) rest later) /\
  (forall m rest tr,
      is_ai m = true ->
      exists e tr',
        parse (sys :: m :: rest) true tr = (Raise e, tr') /\
        (is_ok (conv (msg_content m)) = true -> e = system_before_ai)) /\
  (forall tr,
      fst (parse [Message SystemMessage (CStr "Be terse");
                  Message HumanMessage (CStr "Hi")] true tr)
      = Ok [mkTurn "user" [{[ "text" := VStr "Be terse" ]};
                           {[ "text" := VStr "Hi" ]}]]).
Proof.
  intros Hsys. repeat apply conj.
  - intros tr. now rewrite parse_leading_system.
  - intros m rest tr ts tr' Hhu H.
    rewrite parse_leading_system in H by assumption.
    apply bind_inv_ok in H as (st & tr1 & H & Hret).
    inversion Hret; subst ts tr1; clear Hret.
    cbn [parse_loop] in H.
    apply bind_inv_ok in H as (st1 & tr1 & Hb & H).
    rewrite parse_body_merge in Hb by assumption.
    apply bind_inv_ok in Hb as (p & tr2 & Hp & Hb).
    apply bind_inv_ok in Hb as (sp & tr3 & Hsp & Hb).
    inversion Hb; subst st1 tr1; clear Hb.
    apply parse_loop_ok in H as (later & -> & _ & Hlater).
    exists sp, p, later. repeat split; eauto using convert_ok_inv.
  - intros m rest tr sp p Hhu Hsp Hp Hrest.
    destruct (convert_ok _ tr _ Hp) as [tr1 Hc1].
    destruct (convert_ok _ tr1 _ Hsp) as [tr2 Hc2].
    destruct (parse_loop_total true rest 1 [mkTurn "user" (sp ++ p)] tr2 Hrest)
      as (later & tr3 & Hl).
    exists later, tr3. split.
    + rewrite parse_leading_system by assumption. cbn [parse_loop].
      unfold bind at 1 2. rewrite parse_body_merge by assumption.
      unfold bind at 1 2. rewrite Hc1, Hc2. unfold ret at 1.
      cbn [app]. rewrite Hl. reflexivity.
    + apply parse_loop_ok in Hl as (later' & Heq & _ & Hlater).
      cbn in Heq. inversion Heq; subst. auto.
  - intros m rest tr Hai.
    rewrite parse_leading_system by assumption. cbn [parse_loop].
    unfold bind at 1 2. unfold parse_body. cbn [Nat.eqb andb].
    rewrite Hai. unfold bind at 1. unfold ret at 1. unfold bind at 1.
    rewrite <- (convert_outcome _ (msg_content m) tr).
    destruct (convert (msg_content m) tr) as [[p|e] tr1]; cbn.
    + eexists _, _. split; [reflexivity | reflexivity].
    + eexists _, _. split; [reflexivity | discriminate].
  - intros tr. reflexivity.
Qed.

(** The translation of a prefix, read off the loop. *)
Lemma parse_inv_ok msgs flag tr ts tr' :
  parse msgs flag tr = (Ok ts, tr') ->
  exists st, loop flag 0 msgs (None, []) tr = (Ok st, tr') /\ snd st = ts.
Proof.
  intros H. apply bind_inv_ok in H as (st & tr1 & Hl & Hret).
  inversion Hret; subst. now exists st.
Qed.

(** An iteration on a message that is neither model nor human, and not a
    system message at index 0, raises without touching the trace. *)
Lemma parse_body_unexpected flag i m st tr :
  is_ai m = false -> is_human m = false ->
  (i = 0 -> is_system m = false) ->
  body flag i m st tr = (Raise (unexpected_message m i), tr).
Proof.
  intros Hai Hhu Hsys. unfold parse_body. destruct st as [raw acc].
  assert (Hfirst : (i =? 0)%nat && is_system m = false).
  { destruct i; [|reflexivity]. now rewrite Hsys. }
  rewrite Hfirst, Hai, Hhu. reflexivity.
Qed.

Lemma parse_unexpected flag l1 m l2 tr :
  is_ai m = false -> is_human m = false ->
  (length l1 = 0 -> is_system m = false) ->
  parse (l1 ++ m :: l2) flag tr =
  bind (loop flag 0 l1 (None, []))
       (fun _ => raise (unexpected_message m (length l1))) tr.
Proof.
  intros Hai Hhu Hsys. unfold _parse_chat_history.
  unfold bind at 1. rewrite parse_loop_app. unfold bind.
  destruct (loop flag 0 l1 (None, []) tr) as [[st|e] tr1]; [|reflexivity].
  cbn [Nat.add parse_loop]. unfold bind.
  now rewrite parse_body_unexpected.
Qed.

(** C9: a translation that succeeds emits only turns whose role is "user"
    or "model", one per message after the leading system message, model
    messages as "model" and human messages as "user"; a message of any
    other kind (a system message anywhere but at index 0 included) makes
    the translation raise, and when the messages before it translate, the
    error is the [ValueError] that cites its type and its position. *)
Theorem only_user_and_model_roles msgs flag :
  (forall tr ts tr',
      parse msgs flag tr = (Ok ts, tr') ->
      Forall (fun t => role t = "user" \/ role t = "model") ts /\
      Forall2 role_matches (turn_messages msgs) ts) /\
  (forall i m tr,
      msgs !! i = Some m ->
      is_ai m = false -> is_human m = false ->
      (i = 0 -> is_system m = false) ->
      (exists e tr', parse msgs flag tr = (Raise e, tr')) /\
      (forall pre tr1,
          parse (take i msgs) flag tr = (Ok pre, tr1) ->
          parse msgs flag tr = (Raise (unexpected_message m i), tr1))).
Proof.
  split.
  - intros tr ts tr' H.
    assert (Hroles : Forall2 role_matches (turn_messages msgs) ts).
    { apply parse_inv_ok in H as (st & Hl & <-).
      destruct msgs as [|m rest]; [inversion Hl; constructor|].
      cbn [parse_loop] in Hl.
      apply bind_inv_ok in Hl as (st1 & tr1 & Hb & Hl).
      unfold turn_messages. destruct (is_system m) eqn:Hsys.
      - unfold parse_body in Hb. cbn [Nat.eqb andb] in Hb.
        rewrite Hsys in Hb. destruct flag; cbn in Hb; [|discriminate].
        inversion Hb; subst.
        now apply parse_loop_ok in Hl as (later & -> & Hr & _).
      - assert (Hb' : body flag 1 m (None, []) tr = (Ok st1, tr1)).
        { revert Hb. unfold parse_body. cbn [Nat.eqb andb].
          rewrite Hsys. cbn [andb].
          destruct (is_ai m); [auto|]. destruct (is_human m); [auto|].
          cbn. discriminate. }
        apply parse_body_ok in Hb' as (t & -> & Hrole & _).
        apply parse_loop_ok in Hl as (later & -> & Hr & _).
        now constructor. }
    split; [|assumption].
    clear H. induction Hroles as [|m t ms ts' Hmt _ IH]; constructor; auto.
    destruct Hmt as [[_ ->]|[_ ->]]; auto.
  - intros i m tr Hi Hai Hhu Hsys.
    assert (Hsplit : msgs = take i msgs ++ m :: drop (S i) msgs).
    { now rewrite <- (take_drop_middle msgs i m Hi) at 1. }
    assert (Hlen : length (take i msgs) = i).
    { apply length_take_le. apply lookup_lt_Some in Hi. lia. }
    assert (Hrun : forall tr0,
      parse msgs flag tr0 =
      bind (loop flag 0 (take i msgs) (None, []))
           (fun st => raise (unexpected_message m i)) tr0).
    { intros tr0. rewrite Hsplit at 1.
      rewrite parse_unexpected by (rewrite ?Hlen; assumption).
      now rewrite Hlen. }
    split.
    + rewrite Hrun. unfold bind, raise.
      destruct (loop flag 0 (take i msgs) (None, []) tr) as [[st|e] tr1];
        eauto.
    + intros pre tr1 Hpre. apply parse_inv_ok in Hpre as (st & Hl & _).
      rewrite Hrun. unfold bind. now rewrite Hl.
Qed.

End HistoryProps.

Lemma leading_system_rejected_before_conversion_witness :
  is_system (Message SystemMessage (CStr "Be terse")) = true /\
  _parse_chat_history no_image
    [Message SystemMessage (CStr "Be terse"); Message HumanMessage (CStr "Hi")]
    false []
  = (Raise (Exn ValueError system_not_supported None), []).
Proof.
  split; [reflexivity|].
  apply (leading_system_rejected_before_conversion no_image). reflexivity.
Defined.

Lemma system_message_merged_once_witness :
  is_system (Message SystemMessage (CStr "Be terse")) = true /\
  _parse_chat_history no_image [Message SystemMessage (CStr "Be terse")]
    true [] = (Ok [], []).
Proof.
  split; [reflexivity|].
  apply (proj1 (system_message_merged_once no_image
                  (Message SystemMessage (CStr "Be terse")) eq_refl)).
Defined.

(** ** Response translation *)

Section ResponseProps.

Context `{!PyStr Part} `{!PyStr (option PromptFeedback)} `{!PyStr exn}.
Variable feedback_to_dict : PromptFeedback -> result pyval.
Variable rating_to_dict : SafetyRating -> pyval.

Local Abbreviation to_result :=
  (_response_to_result feedback_to_dict rating_to_dict).
Local Abbreviation to_generation := (candidate_to_generation rating_to_dict).







(** C7: for a response without candidates, provided the serialisation of
    the prompt feedback fails only with ordinary exceptions (the ones its
    [try] absorbs), the translator returns a result with exactly one
    generation, an AI message with content "" and empty generation_info;
    it logs the warning last, and before it at most debug records. *)
Theorem no_candidates_one_empty_generation response ts tr :
  candidates response = [] ->
  (forall fb e, feedback_to_dict fb = Raise e -> isinstance e Exception = true) ->
  exists r dbg,
    to_result response ts tr
    = (Ok r, tr ++ dbg ++ [empty_response_warning response]) /\
    generations r = [generation_t ts (ai_msg_t ts (CStr "")) ∅] /\
    Forall (fun ev => exists msg, ev = EvLog DEBUG msg) dbg.
Proof.
  intros Hnone Hexc. unfold _response_to_result, empty_response_warning.
  rewrite Hnone.
  cbn [candidates_loop].
  destruct (prompt_feedback response) as [fb|] eqn:Hfb.
  - destruct (feedback_truthy (Some fb)).
    + destruct (feedback_to_dict fb) as [d|e] eqn:Hd.
      * eexists _, []. cbn. split; [reflexivity|]. split; [reflexivity|].
        constructor.
      * rewrite (Hexc _ _ Hd). eexists _, [_]. cbn. rewrite <- app_assoc.
        split; [reflexivity|]. split; [reflexivity|].
        repeat constructor. eexists; reflexivity.
    + eexists _, []. cbn. split; [reflexivity|]. split; [reflexivity|].
      constructor.
  - eexists _, []. cbn. split; [reflexivity|]. split; [reflexivity|].
    constructor.
Qed.

End ResponseProps.

Lemma no_candidates_one_empty_generation_witness :
  exists r dbg,
    _response_to_result (fun _ => Ok VNone) (fun _ => VNone)
      (mkResponse None []) final_types []
    = (Ok r, [] ++ dbg ++ [empty_response_warning (mkResponse None [])]) /\
    generations r
    = [generation_t final_types (ai_msg_t final_types (CStr "")) ∅] /\
    Forall (fun ev => exists msg, ev = EvLog DEBUG msg) dbg.
Proof.
  apply (no_candidates_one_empty_generation (fun _ => Ok VNone)
           (fun _ => VNone) (mkResponse None []) final_types []).
  - reflexivity.
  - intros fb e He. discriminate He.
Defined.


(** ** The retrying invoker *)

Section RetryProps.

Context `{!PyStr exn}.
Variable before_sleep_message : nat -> Z -> string.

Local Abbreviation policy := _create_retry_decorator.
Local Abbreviation retrying' := (retrying before_sleep_message policy).
Local Abbreviation schedule' := (schedule before_sleep_message policy).

(** The three retry conditions amount to the last one, the base class. *)
Lemma retry_transient A e :
  retry policy A (Raise e) = isinstance e GoogleAPIError.
Proof. cbn. unfold isinstance. destruct (exn_class e); reflexivity. Qed.

Lemma retry_inv A (outcome : result A) :
  retry policy A outcome = true ->
  exists e, outcome = Raise e /\ isinstance e GoogleAPIError = true.
Proof.
  destruct outcome as [a|e]; [discriminate|].
  rewrite retry_transient. eauto.
Qed.

Lemma stop_spec k : stop policy k = bool_decide (10 <= k).
Proof.
  change (stop policy k) with (10 <=? k)%nat.
  destruct (Nat.leb_spec 10 k); symmetry;
    [apply bool_decide_eq_true_2 | apply bool_decide_eq_false_2]; lia.
Qed.

(** The waits: [2 ** k] seconds after attempt [k], at most 60. *)
Lemma wait_spec k :
  1 <= k -> wait policy k = Z.min (2 ^ Z.of_nat k) 60.
Proof.
  intros Hk.
  change (wait policy k)
    with (Z.max (Z.max 0 1) (Z.min (2 * 2 ^ (Z.of_nat k - 1)) 60)).
  replace (2 * 2 ^ (Z.of_nat k - 1))%Z with (2 ^ Z.of_nat k)%Z.
  - assert (0 < 2 ^ Z.of_nat k)%Z by (apply Z.pow_pos_nonneg; lia). lia.
  - replace (Z.of_nat k) with (Z.succ (Z.of_nat k - 1)) at 1 by lia.
    rewrite Z.pow_succ_r by lia. reflexivity.
Qed.

Lemma attempt_of_run A (o : nat -> result A) k tr :
  attempt_of o k tr = (o k, tr ++ [EvCall k]).
Proof. reflexivity. Qed.

(** An attempt whose outcome is not retried ends the loop. *)
Lemma retrying_final A (o : nat -> result A) fuel k tr :
  retry policy A (o k) = false ->
  retrying' (S fuel) k (attempt_of o) tr = Some (o k, tr ++ [EvCall k]).
Proof.
  intros Hr. cbn [retrying]. rewrite attempt_of_run. now rewrite Hr.
Qed.

(** From attempt [k] with [d] attempts left after it, the loop ends after
    some [c <= d] further attempts with the outcome of the last one. *)
Lemma retrying_runs A (o : nat -> result A) d : forall k fuel tr,
  k + d = 10 -> d < fuel ->
  exists c,
    c <= d /\
    retrying' fuel k (attempt_of o) tr
    = Some (o (k + c), tr ++ schedule' k c) /\
    (forall j, k <= j < k + c -> retry policy A (o j) = true) /\
    (retry policy A (o (k + c)) = false \/ k + c = 10).
Proof.
  induction d as [|d IH]; intros k fuel tr Hk Hfuel;
    (destruct fuel as [|fuel]; [lia|]).
  - exists 0. rewrite Nat.add_0_r. split; [lia|].
    destruct (retry policy A (o k)) eqn:Hr.
    + cbn [retrying]. rewrite attempt_of_run, Hr. cbn [negb].
      rewrite stop_spec, bool_decide_eq_true_2 by lia.
      apply retry_inv in Hr as (e & He & _). rewrite He.
      split; [reflexivity | split; [intros j Hj; lia | right; lia]].
    + rewrite retrying_final by assumption.
      split; [reflexivity | split; [intros j Hj; lia | left; auto]].
  - destruct (retry policy A (o k)) eqn:Hr.
    + destruct (IH (S k) fuel
                  (tr ++ [EvCall k]
                      ++ [EvLog WARNING (before_sleep_message k (wait policy k))]
                      ++ [EvSleep (wait policy k)]))
        as (c & Hc & Hrun & Hprev & Hlast); [lia | lia |].
      exists (S c). rewrite Nat.add_succ_r. split; [lia|].
      split; [| split].
      * cbn [retrying]. rewrite attempt_of_run, Hr. cbn [negb].
        rewrite stop_spec, bool_decide_eq_false_2 by lia.
        rewrite <- !app_assoc. cbn [app] in *. rewrite Hrun.
        cbn [schedule]. now rewrite <- !app_assoc.
      * intros j Hj. destruct (decide (j = k)) as [->|]; [assumption|].
        apply Hprev. lia.
      * assumption.
    + exists 0. rewrite Nat.add_0_r. split; [lia|].
      rewrite retrying_final by assumption.
      split; [reflexivity | split; [intros j Hj; lia | left; auto]].
Qed.

Lemma calls_schedule c : forall k, calls (schedule' k c) = seq k (S c).
Proof.
  induction c as [|c IH]; intros k; [reflexivity|].
  cbn [schedule]. unfold calls in *. cbn [omap list_omap].
  now rewrite IH.
Qed.

Lemma sleeps_schedule c : forall k,
  sleeps (schedule' k c) = wait policy <$> seq k c.
Proof.
  induction c as [|c IH]; intros k; [reflexivity|].
  cbn [schedule]. unfold sleeps in *. cbn [omap list_omap seq fmap list_fmap].
  now rewrite IH.
Qed.

Lemma waits_from k c :
  1 <= k ->
  wait policy <$> seq k c = (fun j => Z.min (2 ^ Z.of_nat j) 60) <$> seq k c.
Proof.
  revert k. induction c as [|c IH]; intros k Hk; [reflexivity|].
  cbn [seq fmap list_fmap]. rewrite wait_spec by assumption.
  f_equal. apply IH. lia.
Qed.

(** Nine retried failures lead to the tenth call, whose outcome is final. *)
Lemma retrying_ten A (o : nat -> result A) fuel tr last :
  10 <= fuel ->
  (forall j, 1 <= j <= 9 -> retry policy A (o j) = true) ->
  o 10 = last ->
  retrying' fuel 1 (attempt_of o) tr = Some (last, tr ++ schedule' 1 9).
Proof.
  intros Hfuel Hall Hten.
  destruct (retrying_runs A o 9 1 fuel tr) as (c & Hc & Hrun & Hprev & Hlast);
    [lia | lia |].
  change (1 + c) with (S c) in *.
  assert (c = 9) as ->.
  { destruct Hlast as [Hno|?]; [|lia].
    destruct (decide (c = 9)) as [|Hne]; [assumption|].
    rewrite Hall in Hno by lia. discriminate. }
  now rewrite Hrun, Hten.
Qed.

(** C2, as the code has it: with enough fuel the loop always ends, after at
    most 10 calls, with the outcome of the last call as it is (a raised
    exception is the one the call raised, not a [RetryError]); before each
    further call it sleeps, [2 ** k] seconds after attempt [k] and never
    more than 60, so 2, 4, 8, 16, 32, 60, 60, ...; it goes on to a further
    call only after an exception that is an instance of [GoogleAPIError]
    (which [ResourceExhausted] and [ServiceUnavailable] are); nine such
    failures and a success give the success, and nine such failures and a
    tenth exception give that exception. *)
Theorem bounded_exponential_retry A (o : nat -> result A) fuel tr :
  10 <= fuel ->
  (exists c,
      c < 10 /\
      retrying' fuel 1 (attempt_of o) tr
      = Some (o (S c), tr ++ schedule' 1 c) /\
      calls (schedule' 1 c) = seq 1 (S c) /\
      sleeps (schedule' 1 c)
      = (fun j => Z.min (2 ^ Z.of_nat j) 60) <$> seq 1 c /\
      (forall j, 1 <= j <= c ->
         exists e, o j = Raise e /\ isinstance e GoogleAPIError = true) /\
      (retry policy A (o (S c)) = false \/ S c = 10)) /\
  (forall outcome,
      retry policy A outcome = true <->
      exists e, outcome = Raise e /\
                (isinstance e ResourceExhausted = true \/
                 isinstance e ServiceUnavailable = true \/
                 isinstance e GoogleAPIError = true)) /\
  (forall last,
      (forall j, 1 <= j <= 9 -> retry policy A (o j) = true) ->
      o 10 = last ->
      retrying' fuel 1 (attempt_of o) tr = Some (last, tr ++ schedule' 1 9) /\
      sleeps (schedule' 1 9) = [2; 4; 8; 16; 32; 60; 60; 60; 60]%Z).
Proof.
  intros Hfuel.
  destruct (retrying_runs A o 9 1 fuel tr) as (c & Hc & Hrun & Hprev & Hlast);
    [lia | lia |].
  change (1 + c) with (S c) in *.
  split; [| split].
  - exists c. split; [lia|]. split; [assumption|].
    split; [apply calls_schedule|].
    split; [rewrite sleeps_schedule; apply waits_from; lia|].
    split; [| destruct Hlast as [?|?]; [now left | right; lia]].
    intros j Hj. apply retry_inv, Hprev. lia.
  - intros outcome. split.
    + intros (e & -> & He)%retry_inv. eauto.
    + intros (e & -> & He). rewrite retry_transient.
      unfold isinstance in *.
      revert He. destruct (exn_class e); vm_compute;
        intros [?|[?|?]]; congruence.
  - intros last Hall Hten. split; [now apply retrying_ten|].
    rewrite sleeps_schedule. reflexivity.
Qed.

Context {R : Type}.
Variable generation_method : nat -> result R.

Local Abbreviation chat := (_chat_with_retry before_sleep_message generation_method).
Local Abbreviation achat := (_achat_with_retry before_sleep_message generation_method).

Lemma instance_failed_precondition e :
  isinstance e FailedPrecondition = true <-> exn_class e = FailedPrecondition.
Proof.
  unfold isinstance. destruct (exn_class e); vm_compute; split; congruence.
Qed.

Lemma instance_invalid_argument e :
  isinstance e InvalidArgument = true <-> exn_class e = InvalidArgument.
Proof.
  unfold isinstance. destruct (exn_class e); vm_compute; split; congruence.
Qed.

(** An exception outside the backend's classes passes both [try]
    statements unchanged. *)
Lemma handlers_pass e :
  isinstance e GoogleAPIError = false ->
  chat_handlers (Raise e) = (Raise e : result (option R)) /\
  achat_handlers (Raise e) = (Raise e : result (option R)).
Proof.
  unfold chat_handlers, achat_handlers, isinstance.
  destruct (exn_class e); vm_compute; intros H; try discriminate H;
    split; reflexivity.
Qed.

Lemma chat_final fuel tr :
  retry policy (option R) (chat_handlers (generation_method 1)) = false ->
  chat (S fuel) tr
  = Some (chat_handlers (generation_method 1), tr ++ [EvCall 1]).
Proof. intros H. unfold _chat_with_retry, chat_attempt. now rewrite retrying_final. Qed.

Lemma achat_final fuel tr :
  retry policy (option R) (achat_handlers (generation_method 1)) = false ->
  achat (S fuel) tr
  = Some (achat_handlers (generation_method 1), tr ++ [EvCall 1]).
Proof. intros H. unfold _achat_with_retry, achat_attempt. now rewrite retrying_final. Qed.

(** The synchronous path turns a location error into the [ValueError],
    after one call. *)
Lemma sync_location_error e fuel tr :
  generation_method 1 = Raise e ->
  exn_class e = FailedPrecondition ->
  str_contains "location is not supported" (exn_message e) = true ->
  chat (S fuel) tr
  = Some (Raise (Exn ValueError location_not_supported None),
          tr ++ [EvCall 1]).
Proof.
  intros Hgm Hcls Hloc. apply instance_failed_precondition in Hcls.
  rewrite chat_final; rewrite Hgm; unfold chat_handlers;
    now rewrite Hcls, Hloc.
Qed.

(** Both paths wrap an invalid argument into the domain error, with the
    original as its cause, after one call. *)
Lemma invalid_argument_wrapped e fuel tr :
  generation_method 1 = Raise e ->
  exn_class e = InvalidArgument ->
  chat (S fuel) tr = Some (Raise (invalid_argument e), tr ++ [EvCall 1]) /\
  achat (S fuel) tr = Some (Raise (invalid_argument e), tr ++ [EvCall 1]).
Proof.
  intros Hgm Hcls.
  assert (Hfp : isinstance e FailedPrecondition = false).
  { unfold isinstance. now rewrite Hcls. }
  apply instance_invalid_argument in Hcls.
  split.
  - rewrite chat_final; rewrite Hgm; unfold chat_handlers;
      now rewrite Hfp, Hcls.
  - rewrite achat_final; rewrite Hgm; unfold achat_handlers;
      now rewrite Hcls.
Qed.

(** The asynchronous path has no clause for a failed precondition: it is
    an ordinary [GoogleAPIError] there, retried until the last attempt and
    then raised as it came. *)
Lemma async_failed_precondition_retried e fuel tr :
  (forall k, generation_method k = Raise e) ->
  exn_class e = FailedPrecondition ->
  10 <= fuel ->
  achat fuel tr = Some (Raise e, tr ++ schedule' 1 9).
Proof.
  intros Hall Hcls Hfuel.
  assert (Hout : forall k, achat_handlers (generation_method k) = Raise e).
  { intros k. rewrite Hall. unfold achat_handlers, isinstance.
    now rewrite Hcls. }
  assert (Hretry : retry policy (option R) (Raise e) = true).
  { rewrite retry_transient. unfold isinstance. now rewrite Hcls. }
  unfold _achat_with_retry, achat_attempt.
  apply retrying_ten; [assumption | | apply Hout].
  intros j _. now rewrite Hout.
Qed.

(** An exception that is no [GoogleAPIError] is raised again unchanged
    after the one call, on both paths. *)
Lemma other_exceptions_reraised e fuel tr :
  generation_method 1 = Raise e ->
  isinstance e GoogleAPIError = false ->
  chat (S fuel) tr = Some (Raise e, tr ++ [EvCall 1]) /\
  achat (S fuel) tr = Some (Raise e, tr ++ [EvCall 1]).
Proof.
  intros Hgm Hcls. destruct (handlers_pass e Hcls) as [Hs Ha].
  split.
  - rewrite chat_final; rewrite Hgm, Hs; [reflexivity|].
    now rewrite retry_transient.
  - rewrite achat_final; rewrite Hgm, Ha; [reflexivity|].
    now rewrite retry_transient.
Qed.

(** A [FailedPrecondition] whose message does not mention the location
    leaves the [except] clause of the synchronous path without raising:
    the call returns [None]. *)
Lemma failed_precondition_swallowed e fuel tr :
  generation_method 1 = Raise e ->
  exn_class e = FailedPrecondition ->
  str_contains "location is not supported" (exn_message e) = false ->
  chat (S fuel) tr = Some (Ok None, tr ++ [EvCall 1]).
Proof.
  intros Hgm Hcls Hloc. apply instance_failed_precondition in Hcls.
  rewrite chat_final; rewrite Hgm; unfold chat_handlers;
    now rewrite Hcls, Hloc.
Qed.

End RetryProps.

(** C2, as stated, fails: after one transient failure the invoker sleeps
    2 seconds before the second call, not 1. *)
Lemma backoff_starts_at_two_seconds :
  exists tr,
    _chat_with_retry retry_message
      (fun k => if (k =? 1)%nat
                then Raise (Exn ResourceExhausted "quota" None) else Ok tt)
      10 []
    = Some (Ok (Some tt), tr) /\
    sleeps tr = [2%Z] /\ sleeps tr <> [1%Z].
Proof.
  eexists. split; [vm_compute; reflexivity|].
  split; [reflexivity | discriminate].
Qed.

Lemma bounded_exponential_retry_witness :
  10 <= 10 /\
  retrying retry_message _create_retry_decorator 10 1
    (attempt_of (fun k => if (k <=? 9)%nat
                          then Raise (Exn ServiceUnavailable "busy" None)
                          else Ok tt)) []
  = Some (Ok tt, [] ++ schedule retry_message _create_retry_decorator 1 9) /\
  sleeps (schedule retry_message _create_retry_decorator 1 9)
  = [2; 4; 8; 16; 32; 60; 60; 60; 60]%Z.
Proof.
  split; [lia|].
  refine (proj2 (proj2 (bounded_exponential_retry retry_message unit
                          _ 10 [] (le_n 10))) (Ok tt) _ eq_refl).
  intros j Hj.
  do 10 (destruct j as [|j]; [first [lia | reflexivity]|]). lia.
Defined.

(** C3 at the failing input: the backend keeps answering with the location
    error.  The synchronous path raises the [ValueError] after one call;
    the asynchronous path calls ten times, sleeping in between, and then
    raises the backend's own error.  An invalid argument is wrapped after
    one call on both paths. *)
Theorem async_location_error_is_retried :
  _chat_with_retry (R := unit) retry_message (fun _ => Raise location_error)
    10 []
  = Some (Raise (Exn ValueError location_not_supported None), [EvCall 1]) /\
  (exists tr,
    _achat_with_retry (R := unit) retry_message
      (fun _ => Raise location_error) 10 []
    = Some (Raise location_error, tr) /\
    calls tr = seq 1 10 /\
    sleeps tr = [2; 4; 8; 16; 32; 60; 60; 60; 60]%Z) /\
  _chat_with_retry (R := unit) retry_message (fun _ => Raise invalid_error)
    10 []
  = Some (Raise (invalid_argument invalid_error), [EvCall 1]) /\
  _achat_with_retry (R := unit) retry_message (fun _ => Raise invalid_error)
    10 []
  = Some (Raise (invalid_argument invalid_error), [EvCall 1]).
Proof.
  split; [| split].
  - apply (sync_location_error retry_message
             (fun _ => Raise location_error) location_error 9 []);
      reflexivity.
  - eexists. split; [| split].
    + apply (async_failed_precondition_retried retry_message
               (fun _ => Raise location_error) location_error 10 []);
        first [reflexivity | lia].
    + reflexivity.
    + reflexivity.
  - apply (invalid_argument_wrapped retry_message
             (fun _ => Raise invalid_error) invalid_error 9 []);
      reflexivity.
Qed.

(** C4 at the failing input: the backend call raises a failed precondition
    that is not about the location, and the synchronous invoker returns
    [None] after that one call instead of raising; an error that is not
    the backend's is raised again as it came, after one call. *)
Theorem failed_precondition_returns_none :
  _chat_with_retry (R := unit) retry_message (fun _ => Raise disabled_error)
    10 []
  = Some (Ok None, [EvCall 1]) /\
  _chat_with_retry (R := unit) retry_message (fun _ => Raise type_error)
    10 []
  = Some (Raise type_error, [EvCall 1]).
Proof.
  split.
  - apply (failed_precondition_swallowed retry_message
             (fun _ => Raise disabled_error) disabled_error 9 []);
      reflexivity.
  - apply (other_exceptions_reraised retry_message
             (fun _ => Raise type_error) type_error 9 []);
      reflexivity.
Qed.

(** ** Validation at construction *)

Lemma get_from_dict_or_env_cases values environ tr :
  (exists k, get_from_dict_or_env values environ tr = (Ok k, tr)) \/
  (exists e, get_from_dict_or_env values environ tr = (Raise e, tr) /\
             exn_class e = ValueError).
Proof.
  unfold get_from_dict_or_env.
  destruct (google_api_key values) as [k|];
    [destruct (String.eqb k "")|];
    try destruct (environ !! "GOOGLE_API_KEY"); cbn; eauto.
Qed.

Lemma get_from_dict_or_env_key values environ tr k :
  google_api_key values = Some k -> k <> "" ->
  get_from_dict_or_env values environ tr = (Ok k, tr).
Proof.
  intros Hk Hne. unfold get_from_dict_or_env. rewrite Hk.
  apply String.eqb_neq in Hne. now rewrite Hne.
Qed.

(** C8: when the temperature or top_p lies outside [0, 1] or top_k is not
    positive, validation raises a [ValueError], having done nothing but
    configure the SDK locally (no call to the backend, no model object);
    with a key and valid parameters it succeeds; a temperature of 1.5 is
    rejected with the range message and one of 0.5 is accepted. *)
Theorem sampling_parameters_validated :
  (forall values environ tr,
      valid_unit (temperature values) && valid_unit (top_p values)
      && valid_top_k (top_k values) = false ->
      exists e evs,
        validate_environment values environ tr = (Raise e, tr ++ evs) /\
        exn_class e = ValueError /\
        Forall (fun ev => network_event ev = false) evs /\
        Forall (fun ev => forall name, ev <> EvNewModel name) evs) /\
  (forall values environ tr k,
      google_api_key values = Some k -> k <> "" ->
      valid_unit (temperature values) && valid_unit (top_p values)
      && valid_top_k (top_k values) = true ->
      exists v,
        validate_environment values environ tr
        = (Ok v, tr ++ [EvConfigure k (transport values);
                        EvNewModel (model values)]) /\
        client v = Some (model values) /\
        temperature v = temperature values) /\
  fst (run (validate_environment (with_temperature 1.5) ∅))
  = Raise (Exn ValueError "temperature must be in the range [0.0, 1.0]" None) /\
  is_ok (fst (run (validate_environment (with_temperature 0.5) ∅))) = true.
Proof.
  split; [| split; [| split; reflexivity]].
  - intros values environ tr Hbad. unfold validate_environment.
    destruct (get_from_dict_or_env_cases values environ tr)
      as [[k Hk] | (e & He & Hcls)].
    + unfold bind at 1. rewrite Hk. unfold bind at 1. unfold emit at 1.
      unfold valid_unit, valid_top_k in Hbad.
      destruct (temperature values) as [t|];
        [destruct (in_unit_interval t)|];
        (destruct (top_p values) as [p|];
           [destruct (in_unit_interval p)|]);
        (destruct (top_k values) as [n|];
           [destruct (n <=? 0)%Z|]);
        try discriminate Hbad; cbn;
        eexists _, [_]; (split; [reflexivity|]);
        (split; [reflexivity|]);
        split; repeat constructor; discriminate.
    + exists e, []. unfold bind at 1. rewrite He, app_nil_r.
      repeat split; auto.
  - intros values environ tr k Hk Hne Hok. unfold validate_environment.
    unfold bind at 1. rewrite (get_from_dict_or_env_key _ _ _ _ Hk Hne).
    unfold bind at 1. unfold emit at 1.
    unfold valid_unit, valid_top_k in Hok.
    destruct (temperature values) as [t|] eqn:Ht;
      [destruct (in_unit_interval t)|];
      (destruct (top_p values) as [p|];
         [destruct (in_unit_interval p)|]);
      (destruct (top_k values) as [n|];
         [destruct (n <=? 0)%Z|]);
      try discriminate Hok; cbn; rewrite <- app_assoc;
      eexists; (split; [reflexivity|]); split; reflexivity.
Qed.

(** ** Request preparation *)

Section OrchestratorProps.

Variable _url_to_pil : pyval -> result image.
Context `{!PyStr pyval} `{!PyStr Part} `{!PyStr (option PromptFeedback)}
        `{!PyStr exn}.
Variable feedback_to_dict : PromptFeedback -> result pyval.
Variable rating_to_dict : SafetyRating -> pyval.
Variable before_sleep_message : nat -> Z -> string.

Local Abbreviation parse := (_parse_chat_history _url_to_pil).
Local Abbreviation prepare := (_prepare_chat _url_to_pil).
Local Abbreviation generate :=
  (_generate _url_to_pil feedback_to_dict rating_to_dict before_sleep_message).
Local Abbreviation stream :=
  (_stream _url_to_pil feedback_to_dict rating_to_dict before_sleep_message).

(** Without keyword arguments the parameters are assembled silently. *)
Lemma prepare_params_plain self stop tr :
  exists params, _prepare_params self stop ∅ tr = (Ok params, tr).
Proof.
  unfold _prepare_params. rewrite lookup_empty. eexists. reflexivity.
Qed.

(** A history that translates to no turn makes [history.pop()] raise. *)
Lemma prepare_chat_empty self messages stop tr :
  parse messages (convert_system_message_to_human self) tr = (Ok [], tr) ->
  prepare self messages stop ∅ tr = (Raise pop_from_empty_list, tr).
Proof.
  intros Hparse. unfold _prepare_chat.
  destruct (prepare_params_plain self stop tr) as [params Hp].
  unfold bind at 1. rewrite Hp. unfold bind at 1. rewrite Hparse.
  reflexivity.
Qed.

(** C10: the empty conversation, and a conversation that is only a
    leading system message with the flag set, translate to the empty turn
    list with the trace unchanged (the system content is never converted);
    request preparation then pops from that empty list, so [_generate] and
    [_stream] raise the bare [IndexError] before any call to the backend. *)
Theorem empty_history_pops_empty_list self stop messages :
  (forall flag tr, parse [] flag tr = (Ok [], tr)) /\
  (forall sys tr, is_system sys = true -> parse [sys] true tr = (Ok [], tr)) /\
  (messages = [] \/
   (exists sys, messages = [sys] /\ is_system sys = true /\
                convert_system_message_to_human self = true) ->
   forall send stream_send run_manager fuel tr,
     generate self messages stop send fuel tr
     = Some (Raise pop_from_empty_list, tr) /\
     stream self messages stop run_manager stream_send fuel tr
     = Some (Raise pop_from_empty_list, tr)).
Proof.
  assert (Hsys : forall sys tr,
             is_system sys = true -> parse [sys] true tr = (Ok [], tr)).
  { intros sys tr H. unfold _parse_chat_history. cbn [parse_loop].
    unfold bind, parse_body. cbn [Nat.eqb andb negb]. now rewrite H. }
  split; [reflexivity|]. split; [exact Hsys|].
  intros Hmsgs send stream_send run_manager fuel tr.
  assert (Hprep : prepare self messages stop ∅ tr
                  = (Raise pop_from_empty_list, tr)).
  { apply prepare_chat_empty.
    destruct Hmsgs as [-> | (sys & -> & His & ->)];
      [reflexivity | now apply Hsys]. }
  unfold _generate, _stream. now rewrite Hprep.
Qed.

End OrchestratorProps.

(** * Further properties *)

(** ** Part conversion, element by element *)

Section PartProps.

Variable _url_to_pil : pyval -> result image.
Context `{!PyStr pyval}.

Local Abbreviation convert := (_convert_to_parts _url_to_pil).
Local Abbreviation conv := (converted _url_to_pil).
Local Abbreviation cpart := (convert_part _url_to_pil).
Local Abbreviation cloop := (convert_loop _url_to_pil).
Local Abbreviation outcome := (part_outcome _url_to_pil).

Lemma convert_part_outcome part tr : fst (cpart part tr) = outcome part.
Proof. now rewrite (framed_convert_part _ part tr). Qed.

Lemma image_loads_app tr1 tr2 :
  image_loads (tr1 ++ tr2) = image_loads tr1 ++ image_loads tr2.
Proof. apply omap_app. Qed.

Lemma warnings_app tr1 tr2 : warnings (tr1 ++ tr2) = warnings tr1 ++ warnings tr2.
Proof. apply omap_app. Qed.

(** The loop succeeds exactly when every element converts, and then it
    appends their parts in order. *)
Lemma convert_loop_elementwise l : forall acc tr ps,
  fst (cloop l acc tr) = Ok ps <->
  exists ps', ps = acc ++ ps' /\ Forall2 (fun q d => outcome q = Ok d) l ps'.
Proof.
  induction l as [|q l IH]; intros acc tr ps; cbn [convert_loop].
  - cbn. split.
    + intros [= <-]. exists []. rewrite app_nil_r. split; [reflexivity|constructor].
    + intros (ps' & -> & H). inversion H; subst. now rewrite app_nil_r.
  - unfold bind. pose proof (convert_part_outcome q tr) as Hq.
    destruct (cpart q tr) as [[d|e] tr1]; cbn [fst] in *.
    + rewrite IH. split.
      * intros (ps' & -> & H). exists (d :: ps'). rewrite <- app_assoc.
        split; [reflexivity|]. now constructor.
      * intros (ps' & -> & H). inversion H as [|? d' ? ps'' Hd Hrest]; subst.
        rewrite <- Hq in Hd. injection Hd as <-.
        exists ps''. now rewrite <- app_assoc.
    + split; [discriminate|].
      intros (ps' & -> & H). inversion H as [|? d' ? ps'' Hd Hrest]; subst.
      rewrite <- Hq in Hd. discriminate.
Qed.

Lemma conv_list l : conv (CList l) = fst (cloop l [] [EvConvertParts (CList l)]).
Proof. reflexivity. Qed.

(** X1: a content list converts exactly when each of its elements
    converts, and the parts are those of the elements, one per element and
    in the same order. *)
Theorem conversion_is_elementwise l ps :
  converted _url_to_pil (CList l) = Ok ps <->
  Forall2 (fun q d => part_outcome _url_to_pil q = Ok d) l ps.
Proof.
  rewrite conv_list, convert_loop_elementwise. split.
  - now intros (ps' & -> & H).
  - intros H. now exists ps.
Qed.

(** The loop raises what the first failing element raises. *)
Lemma convert_loop_first_failure l1 q l2 e : forall acc tr,
  Forall (fun p => is_ok (outcome p) = true) l1 ->
  outcome q = Raise e ->
  cloop (l1 ++ q :: l2) acc tr
  = (Raise e, snd (cloop (l1 ++ [q]) acc tr)).
Proof.
  induction l1 as [|p l1 IH]; intros acc tr Hall Hq; cbn [app convert_loop].
  - unfold bind. rewrite <- (convert_part_outcome q tr) in Hq.
    destruct (cpart q tr) as [[d|e'] tr1]; cbn in Hq; [discriminate|].
    now injection Hq as ->.
  - inversion Hall as [|? ? Hp Hall']; subst. unfold bind.
    rewrite <- (convert_part_outcome p tr) in Hp.
    destruct (cpart p tr) as [[d|e'] tr1]; cbn in Hp; [|discriminate].
    now apply IH.
Qed.

(** X2: when the elements before some element convert and that element
    fails, the conversion raises that element's error, and the media
    loader has been called for nothing that comes after it. *)
Theorem conversion_stops_at_first_failure l1 q l2 e tr :
  Forall (fun p => is_ok (outcome p) = true) l1 ->
  outcome q = Raise e ->
  fst (convert (CList (l1 ++ q :: l2)) tr) = Raise e /\
  image_loads (snd (convert (CList (l1 ++ q :: l2)) tr))
  = image_loads (snd (convert (CList (l1 ++ [q])) tr)).
Proof.
  intros Hall Hq. unfold _convert_to_parts, bind, emit.
  rewrite (convert_loop_first_failure l1 q l2 e) by assumption. cbn [fst snd].
  split; [reflexivity|].
  rewrite (framed_convert_loop _ (l1 ++ [q]) []
             (tr ++ [EvConvertParts (CList (l1 ++ q :: l2))])).
  rewrite (framed_convert_loop _ (l1 ++ [q]) []
             (tr ++ [EvConvertParts (CList (l1 ++ [q]))])).
  destruct (cloop (l1 ++ [q]) [] []) as [[ps|e'] evs]; cbn [fst snd];
    rewrite !image_loads_app; reflexivity.
Qed.

(** An element that is no image descriptor never reaches the loader. *)
Lemma convert_part_no_load q tr :
  is_image_descriptor q = false ->
  image_loads (snd (cpart q tr)) = image_loads tr.
Proof.
  intros Hq. destruct q as [| s | k | x | img | l | d];
    try (cbn; now rewrite ?app_nil_r).
  unfold convert_part, _is_openai_parts_format, getitem.
  unfold is_image_descriptor in Hq.
  destruct (d !! "type") as [ty|] eqn:Hty.
  - unfold bind at 1. unfold ret at 1. rewrite Hq.
    destruct (eq_str ty "text"); [|reflexivity].
    destruct (d !! "text"); reflexivity.
  - cbn. rewrite image_loads_app. cbn. now rewrite app_nil_r.
Qed.

Lemma convert_loop_no_load l : forall acc tr,
  Forall (fun q => is_image_descriptor q = false) l ->
  image_loads (snd (cloop l acc tr)) = image_loads tr.
Proof.
  induction l as [|q l IH]; intros acc tr Hall; [reflexivity|].
  inversion Hall as [|? ? Hq Hall']; subst. cbn [convert_loop]. unfold bind.
  pose proof (convert_part_no_load q tr Hq) as Hload.
  destruct (cpart q tr) as [[d|e] tr1]; cbn [snd] in *.
  - now rewrite IH.
  - assumption.
Qed.

(** X3: converting a content that holds no image descriptor never calls
    the media loader, whether the conversion succeeds or raises. *)
Theorem no_image_descriptor_no_load raw tr :
  match raw with
  | CStr _ => True
  | CList l => Forall (fun q => is_image_descriptor q = false) l
  end ->
  image_loads (snd (convert raw tr)) = image_loads tr.
Proof.
  intros Hraw. unfold _convert_to_parts, bind, emit.
  rewrite convert_loop_no_load.
  - rewrite image_loads_app. cbn. now rewrite app_nil_r.
  - destruct raw as [s|l]; [|assumption]. now repeat constructor.
Qed.

(** X4: descriptors with a key missing.  A text descriptor without
    ["text"] and an image descriptor without ["image_url"] raise
    [KeyError]; an image descriptor whose [image_url] is a dict without
    ["url"] raises [ValueError] before the loader is called; a descriptor
    of any other type raises [ValueError] naming the type. *)
Theorem descriptor_errors (d : dict) :
  (d !! "type" = Some (VStr "text") -> d !! "text" = None ->
   outcome (VDict d) = Raise (Exn KeyError "text" None)) /\
  (d !! "type" = Some (VStr "image_url") -> d !! "image_url" = None ->
   outcome (VDict d) = Raise (Exn KeyError "image_url" None)) /\
  (forall u : dict,
      d !! "type" = Some (VStr "image_url") ->
      d !! "image_url" = Some (VDict u) -> u !! "url" = None ->
      run (cpart (VDict d))
      = (Raise (Exn ValueError
                  ("Unrecognized message image format: " +:+ py_str (VDict u))
                  None), [])) /\
  (forall ty,
      d !! "type" = Some ty ->
      eq_str ty "text" = false -> eq_str ty "image_url" = false ->
      run (cpart (VDict d))
      = (Raise (Exn ValueError
                  ("Unrecognized message part type: " +:+ py_str ty) None),
         [])).
Proof.
  unfold part_outcome, run, convert_part, _is_openai_parts_format, getitem.
  repeat apply conj.
  - intros -> Htext. unfold bind at 1. unfold ret at 1.
    change (eq_str (VStr "text") "text") with true. cbv iota.
    now rewrite Htext.
  - intros -> Himg. unfold bind at 1. unfold ret at 1.
    change (eq_str (VStr "image_url") "text") with false.
    change (eq_str (VStr "image_url") "image_url") with true. cbv iota.
    now rewrite Himg.
  - intros u -> Himg Hurl. unfold bind at 1. unfold ret at 1.
    change (eq_str (VStr "image_url") "text") with false.
    change (eq_str (VStr "image_url") "image_url") with true. cbv iota.
    rewrite Himg. unfold bind at 1. unfold ret at 1.
    unfold bind at 1. now rewrite Hurl.
  - intros ty -> Ht Hi. unfold bind at 1. unfold ret at 1.
    now rewrite Ht, Hi.
Qed.

Lemma convert_loop_untyped (ds : list dict) : forall acc tr,
  Forall (fun d : dict => d !! "type" = None) ds ->
  cloop (VDict <$> ds) acc tr
  = (Ok (acc ++ ds),
     tr ++ ((fun _ => EvLog WARNING assume_text_warning) <$> ds)).
Proof.
  induction ds as [|d ds IH]; intros acc tr Hall.
  - cbn. now rewrite !app_nil_r.
  - inversion Hall as [|? ? Hd Hall']; subst.
    cbn [fmap list_fmap convert_loop]. unfold bind at 1.
    unfold convert_part, _is_openai_parts_format. rewrite Hd.
    unfold bind at 1. unfold logger_warning, emit, ret.
    rewrite IH by assumption. now rewrite <- !app_assoc.
Qed.

(** X5: mappings without a ["type"] key pass through the converter
    unchanged and in order, one warning being logged for each; nothing is
    raised and no image is loaded. *)
Theorem untyped_mappings_pass_through (ds : list dict) tr :
  Forall (fun d : dict => d !! "type" = None) ds ->
  convert (CList (VDict <$> ds)) tr
  = (Ok ds,
     tr ++ EvConvertParts (CList (VDict <$> ds))
        :: ((fun _ => EvLog WARNING assume_text_warning) <$> ds)).
Proof.
  intros Hall. unfold _convert_to_parts, bind, emit.
  rewrite convert_loop_untyped by assumption. now rewrite <- app_assoc.
Qed.

Lemma convert_loop_strings ss : forall acc tr,
  cloop (VStr <$> ss) acc tr = (Ok (acc ++ (text_part <$> ss)), tr).
Proof.
  induction ss as [|s ss IH]; intros acc tr.
  - cbn. now rewrite app_nil_r.
  - cbn [fmap list_fmap convert_loop]. unfold bind at 1. cbn [convert_part].
    unfold ret at 1. rewrite IH. now rewrite <- app_assoc.
Qed.

(** X6: a list of strings converts to one text part per string, in order
    and silently; a lone string converts like the list that holds just
    it. *)
Theorem strings_become_text_parts ss s :
  (forall tr,
      convert (CList (VStr <$> ss)) tr
      = (Ok (text_part <$> ss), tr ++ [EvConvertParts (CList (VStr <$> ss))])) /\
  conv (CStr s) = conv (CList [VStr s]).
Proof.
  split; [|reflexivity].
  intros tr. unfold _convert_to_parts, bind, emit.
  now rewrite convert_loop_strings.
Qed.

End PartProps.

Lemma conversion_stops_at_first_failure_witness :
  fst (_convert_to_parts no_image
         (CList ([VStr "a"] ++ VInt 1 :: [VStr "b"])) [])
  = Raise (Exn ChatGoogleGenerativeAIError
             "Gemini only supports text and inline_data parts." None) /\
  image_loads (snd (_convert_to_parts no_image
                      (CList ([VStr "a"] ++ VInt 1 :: [VStr "b"])) []))
  = image_loads (snd (_convert_to_parts no_image
                        (CList ([VStr "a"] ++ [VInt 1])) [])).
Proof.
  apply (conversion_stops_at_first_failure no_image [VStr "a"] (VInt 1)
           [VStr "b"]).
  - repeat constructor.
  - reflexivity.
Defined.

Lemma no_image_descriptor_no_load_witness :
  image_loads (snd (_convert_to_parts no_image
                      (CList [VStr "a"; VDict {[ "text" := VStr "b" ]}]) []))
  = image_loads [].
Proof.
  apply (no_image_descriptor_no_load no_image
           (CList [VStr "a"; VDict {[ "text" := VStr "b" ]}]) []).
  repeat constructor.
Defined.

Lemma untyped_mappings_pass_through_witness :
  _convert_to_parts no_image
    (CList (VDict <$> [ ({[ "text" := VStr "b" ]} : dict) ])) []
  = (Ok [ {[ "text" := VStr "b" ]} ],
     [] ++ EvConvertParts
             (CList (VDict <$> [ ({[ "text" := VStr "b" ]} : dict) ]))
        :: ((fun _ => EvLog WARNING assume_text_warning)
              <$> [ ({[ "text" := VStr "b" ]} : dict) ])).
Proof.
  apply (untyped_mappings_pass_through no_image
           [ ({[ "text" := VStr "b" ]} : dict) ] []).
  repeat constructor.
Defined.

(** ** History translation: the flag, prefixes and plain conversations *)

Section HistoryMore.

Variable _url_to_pil : pyval -> result image.
Context `{!PyStr pyval}.

Local Abbreviation conv := (converted _url_to_pil).
Local Abbreviation parse := (_parse_chat_history _url_to_pil).
Local Abbreviation body := (parse_body _url_to_pil).
Local Abbreviation loop := (parse_loop _url_to_pil).

(** Away from a leading system message the flag is not looked at. *)
Lemma parse_body_flag i m st tr :
  (i =? 0)%nat && is_system m = false ->
  body true i m st tr = body false i m st tr.
Proof.
  intros H. unfold parse_body. destruct st as [raw acc]. now rewrite H.
Qed.

Lemma parse_loop_flag l : forall i st tr,
  loop true (S i) l st tr = loop false (S i) l st tr.
Proof.
  induction l as [|m l IH]; intros i st tr; [reflexivity|].
  cbn [parse_loop]. unfold bind. rewrite parse_body_flag by reflexivity.
  destruct (body false (S i) m st tr) as [[st1|e] tr1]; [apply IH|reflexivity].
Qed.

Lemma parse_loop_flag_start msgs st tr :
  leading_system msgs = false ->
  loop true 0 msgs st tr = loop false 0 msgs st tr.
Proof.
  destruct msgs as [|m rest]; [reflexivity|]. cbn [leading_system].
  intros Hlead. cbn [parse_loop]. unfold bind.
  rewrite parse_body_flag by (now rewrite Hlead).
  destruct (body false 0 m st tr) as [[st1|e] tr1];
    [apply parse_loop_flag | reflexivity].
Qed.

(** X7: for a conversation that does not start with a system message,
    [convert_system_message_to_human] changes nothing: same outcome, same
    trace. *)
Theorem flag_only_matters_for_leading_system msgs tr :
  leading_system msgs = false ->
  parse msgs true tr = parse msgs false tr.
Proof.
  intros Hlead. unfold _parse_chat_history, bind.
  now rewrite parse_loop_flag_start.
Qed.

(** The loop only ever appends to [messages]. *)
Lemma parse_loop_appends l i raw acc tr st tr' :
  loop true i l (raw, acc) tr = (Ok st, tr') \/
  loop false i l (raw, acc) tr = (Ok st, tr') ->
  exists ts, snd st = acc ++ ts.
Proof.
  destruct l as [|m l].
  - intros [H|H]; inversion H; subst; exists []; now rewrite app_nil_r.
  - intros H.
    assert (exists flag st1 tr1,
               body flag i m (raw, acc) tr = (Ok st1, tr1) /\
               loop flag (S i) l st1 tr1 = (Ok st, tr'))
      as (flag & st1 & tr1 & Hb & Hl).
    { destruct H as [H|H]; cbn [parse_loop] in H;
        apply bind_inv_ok in H as (st1 & tr1 & Hb & Hl); eauto 6. }
    assert (exists ts1, snd st1 = acc ++ ts1) as [ts1 Hst1].
    { destruct i as [|i].
      - unfold parse_body in Hb. cbn [Nat.eqb andb] in Hb.
        destruct (is_system m) eqn:Hsys.
        + destruct flag; cbn in Hb; [|discriminate].
          inversion Hb; subst. exists []. cbn. now rewrite app_nil_r.
        + assert (Hb' : body flag 1 m (raw, acc) tr = (Ok st1, tr1)).
          { revert Hb. unfold parse_body. cbn [Nat.eqb andb].
            destruct (is_ai m); [auto|]. destruct (is_human m); [auto|].
            cbn. discriminate. }
          apply parse_body_ok in Hb' as (t & -> & _). now exists [t].
      - apply parse_body_ok in Hb as (t & -> & _). now exists [t]. }
    destruct st1 as [raw1 acc1]. cbn in Hst1. subst acc1.
    apply parse_loop_ok in Hl as (ts & -> & _).
    exists (ts1 ++ ts). now rewrite app_assoc.
Qed.

(** X8: when a conversation translates, so does each of its prefixes, to a
    prefix of the turns. *)
Theorem prefix_translates_to_prefix l1 l2 flag tr ts tr' :
  _parse_chat_history _url_to_pil (l1 ++ l2) flag tr = (Ok ts, tr') ->
  exists ts1 tr1,
    _parse_chat_history _url_to_pil l1 flag tr = (Ok ts1, tr1) /\
    ts1 `prefix_of` ts.
Proof.
  intros H. apply parse_inv_ok in H as (st & Hl & <-).
  rewrite parse_loop_app in Hl.
  apply bind_inv_ok in Hl as ([raw1 ts1] & tr1 & Hl1 & Hl2).
  exists ts1, tr1. split.
  - unfold _parse_chat_history, bind. now rewrite Hl1.
  - destruct (parse_loop_appends l2 (0 + length l1) raw1 ts1 tr1 st tr')
      as [ts2 ->].
    + destruct flag; auto.
    + now exists ts2.
Qed.

(** At a model or human message the index plays no part. *)
Lemma parse_body_index flag i j m st tr :
  is_ai m = true \/ is_human m = true ->
  body flag i m st tr = body flag j m st tr.
Proof.
  intros Hkind. unfold parse_body. destruct st as [raw acc].
  assert (Hsys : is_system m = false).
  { destruct Hkind; [now apply ai_not_system | now apply human_not_system]. }
  rewrite Hsys, !andb_false_r. cbn [andb].
  destruct (is_ai m); [reflexivity|].
  destruct Hkind as [? | ->]; [discriminate | reflexivity].
Qed.

(** A successful iteration on something that is no system message was on a
    model or a human message. *)
Lemma parse_body_kind flag i m st tr st' tr' :
  is_system m = false ->
  body flag i m st tr = (Ok st', tr') ->
  is_ai m = true \/ is_human m = true.
Proof.
  intros Hsys. unfold parse_body. destruct st as [raw acc].
  rewrite Hsys, !andb_false_r. cbn [andb].
  destruct (is_ai m); [auto|]. destruct (is_human m); [auto|].
  cbn. discriminate.
Qed.

Lemma translates_translatable m t :
  translates _url_to_pil m t -> translatable _url_to_pil m.
Proof.
  intros [Hrole Hconv]. split.
  - destruct Hrole as [[? _]|[? _]]; auto.
  - now rewrite Hconv.
Qed.

(** X9: a conversation that does not start with a system message
    translates exactly when each message is a model or human message whose
    content converts; the turns are then the translations of the messages,
    one by one. *)
Theorem plain_conversation_translates msgs flag tr :
  leading_system msgs = false ->
  ((exists ts tr', parse msgs flag tr = (Ok ts, tr')) <->
   Forall (translatable _url_to_pil) msgs) /\
  (forall ts tr',
      parse msgs flag tr = (Ok ts, tr') ->
      Forall2 (translates _url_to_pil) msgs ts).
Proof.
  intros Hlead.
  assert (Hturns : forall ts tr',
             parse msgs flag tr = (Ok ts, tr') ->
             Forall2 (translates _url_to_pil) msgs ts).
  { intros ts tr' H. apply parse_inv_ok in H as (st & Hl & <-).
    destruct msgs as [|m rest]; [inversion Hl; constructor|].
    cbn [leading_system] in Hlead. cbn [parse_loop] in Hl.
    apply bind_inv_ok in Hl as (st1 & tr1 & Hb & Hl).
    pose proof (parse_body_kind _ _ _ _ _ _ _ Hlead Hb) as Hkind.
    rewrite (parse_body_index flag 0 1 m) in Hb by assumption.
    apply parse_body_ok in Hb as (t & -> & Hrole & Hparts).
    apply parse_loop_ok in Hl as (later & -> & _ & Hlater).
    constructor; [split; auto | auto]. }
  split; [| exact Hturns]. split.
  - intros (ts & tr' & H). apply Hturns in H. clear Hturns Hlead.
    induction H; constructor; eauto using translates_translatable.
  - intros Hall. destruct msgs as [|m rest].
    + exists [], tr. reflexivity.
    + inversion Hall as [|? ? Hm Hrest]; subst.
      destruct (parse_loop_total _url_to_pil flag [m] 0 [] tr)
        as (t1 & tr1 & Hl1); [now constructor|].
      cbn [parse_loop] in Hl1.
      apply bind_inv_ok in Hl1 as (st1 & tr1' & Hb & Hret).
      inversion Hret; subst st1 tr1'; clear Hret.
      destruct Hm as [Hkind _].
      rewrite (parse_body_index flag 1 0 m) in Hb by assumption.
      destruct (parse_loop_total _url_to_pil flag rest 0 ([] ++ t1) tr1 Hrest)
        as (ts & tr2 & Hl).
      exists (([] ++ t1) ++ ts), tr2.
      unfold _parse_chat_history. cbn [parse_loop].
      unfold bind at 1 2. rewrite Hb. cbn [app] in Hl. rewrite Hl.
      reflexivity.
Qed.

End HistoryMore.

Lemma flag_only_matters_for_leading_system_witness :
  _parse_chat_history no_image
    [Message HumanMessage (CStr "Hi"); Message AIMessage (CStr "Hello")] true []
  = _parse_chat_history no_image
      [Message HumanMessage (CStr "Hi"); Message AIMessage (CStr "Hello")]
      false [].
Proof.
  apply (flag_only_matters_for_leading_system no_image
           [Message HumanMessage (CStr "Hi"); Message AIMessage (CStr "Hello")]
           []).
  reflexivity.
Defined.

Lemma prefix_translates_to_prefix_witness :
  exists ts1 tr1,
    _parse_chat_history no_image [Message HumanMessage (CStr "Hi")] false []
    = (Ok ts1, tr1) /\
    ts1 `prefix_of` [mkTurn "user" [text_part "Hi"];
                     mkTurn "model" [text_part "Hello"]].
Proof.
  apply (prefix_translates_to_prefix no_image
           [Message HumanMessage (CStr "Hi")]
           [Message AIMessage (CStr "Hello")] false []
           [mkTurn "user" [text_part "Hi"]; mkTurn "model" [text_part "Hello"]]
           [EvConvertParts (CStr "Hi"); EvConvertParts (CStr "Hello")]).
  reflexivity.
Defined.

Lemma plain_conversation_translates_witness :
  ((exists ts tr',
       _parse_chat_history no_image
         [Message HumanMessage (CStr "Hi"); Message AIMessage (CStr "Hello")]
         false [] = (Ok ts, tr')) <->
   Forall (translatable no_image)
     [Message HumanMessage (CStr "Hi"); Message AIMessage (CStr "Hello")]) /\
  (forall ts tr',
      _parse_chat_history no_image
        [Message HumanMessage (CStr "Hi"); Message AIMessage (CStr "Hello")]
        false [] = (Ok ts, tr') ->
      Forall2 (translates no_image)
        [Message HumanMessage (CStr "Hi"); Message AIMessage (CStr "Hello")]
        ts).
Proof.
  apply (plain_conversation_translates no_image
           [Message HumanMessage (CStr "Hi"); Message AIMessage (CStr "Hello")]
           false []).
  reflexivity.
Defined.

(** ** Response translation, candidate by candidate *)

Section ResponseMore.

Context `{!PyStr Part} `{!PyStr (option PromptFeedback)} `{!PyStr exn}.
Variable feedback_to_dict : PromptFeedback -> result pyval.
Variable rating_to_dict : SafetyRating -> pyval.

Local Abbreviation to_result :=
  (_response_to_result feedback_to_dict rating_to_dict).
Local Abbreviation to_generation := (candidate_to_generation rating_to_dict).
Local Abbreviation cloop := (candidates_loop rating_to_dict).

Lemma framed_parts_loop parts : forall messages, framed (parts_loop parts messages).
Proof.
  induction parts as [|p parts IH]; intros messages; cbn; [framed|].
  destruct (text p); [apply IH | framed].
Qed.

Lemma framed_parts_to_content parts : framed (_parts_to_content parts).
Proof.
  unfold _parts_to_content. destruct (single_text parts); [framed|].
  destruct parts; [unfold logger_warning; framed|].
  apply framed_bind; [apply framed_parts_loop | intros; framed].
Qed.

Lemma parts_to_content_outcome parts tr :
  fst (_parts_to_content parts tr) = parts_content parts.
Proof. now rewrite (framed_parts_to_content parts tr). Qed.

Lemma framed_candidate ts c : framed (to_generation ts c).
Proof.
  unfold candidate_to_generation.
  apply framed_bind; [apply framed_parts_to_content | intros pc].
  apply framed_bind; [| intros; framed].
  destruct (role_map ts _); [framed|].
  unfold logger_warning. framed.
Qed.

Lemma framed_candidates_loop ts cs : forall gs, framed (cloop ts cs gs).
Proof.
  induction cs as [|c cs IH]; intros gs; cbn; [framed|].
  apply framed_bind; [apply framed_candidate | intros; apply IH].
Qed.







Lemma candidates_loop_length ts cs : forall gs tr gs' tr',
  cloop ts cs gs tr = (Ok gs', tr') ->
  length gs' = length gs + length cs.
Proof.
  induction cs as [|c cs IH]; intros gs tr gs' tr'; cbn [candidates_loop].
  - intros [= <- <-]. cbn. lia.
  - intros H. apply bind_inv_ok in H as (g & tr1 & _ & H).
    apply IH in H. rewrite length_app in H. cbn in *. lia.
Qed.





(** The outcome of the translation: the generations come from the
    candidates, the [llm_output] from the prompt feedback. *)
Lemma to_result_outcome response ts tr :
  (forall fb e, feedback_to_dict fb = Raise e -> isinstance e Exception = true) ->
  fst (to_result response ts tr)
  = match fst (run (cloop ts (candidates response) [])) with
    | Raise e => Raise e
    | Ok gs =>
        Ok (mkChatResult
              match candidates response with
              | [] => [generation_t ts (ai_msg_t ts (CStr "")) ∅]
              | _ => gs
              end
              (feedback_output feedback_to_dict response))
    end.
Proof.
  intros Hexc. unfold _response_to_result, feedback_output, run.
  set (loop := cloop ts (candidates response) []).
  assert (Hloop : forall t, loop t = (fst (loop []), t ++ snd (loop [])))
    by apply framed_candidates_loop.
  assert (Hrest : forall L t,
    fst ((let* generations := loop in
          let* generations0 :=
            match candidates response with
            | [] =>
                let* _ := logger_warning
                  ("Gemini produced an empty response. Continuing with empty message"
                   +:+ nl +:+ "Feedback: " +:+ py_str (prompt_feedback response)) in
                ret [generation_t ts (ai_msg_t ts (CStr "")) ∅]
            | _ :: _ => ret generations
            end in
          ret (mkChatResult generations0 L)) t)
    = match fst (loop []) with
      | Raise e => Raise e
      | Ok gs =>
          Ok (mkChatResult
                match candidates response with
                | [] => [generation_t ts (ai_msg_t ts (CStr "")) ∅]
                | _ => gs
                end L)
      end).
  { intros L t. unfold bind at 1. rewrite (Hloop t).
    destruct (fst (loop [])) as [gs|e]; [|reflexivity].
    destruct (candidates response); reflexivity. }
  destruct (prompt_feedback response) as [fb|].
  - destruct (feedback_truthy (Some fb)).
    + destruct (feedback_to_dict fb) as [d|e] eqn:Hd.
      * unfold bind at 1. unfold ret at 1. apply Hrest.
      * rewrite (Hexc _ _ Hd). unfold bind at 1 2.
        unfold logger_debug, emit, ret at 1. apply Hrest.
    + unfold bind at 1. unfold ret at 1. apply Hrest.
  - unfold bind at 1. unfold ret at 1. apply Hrest.
Qed.

(** X10: a translated response holds one generation per candidate, and
    exactly one when there is no candidate, so the list is never empty. *)
Theorem one_generation_per_candidate response ts tr r tr' :
  _response_to_result feedback_to_dict rating_to_dict response ts tr
  = (Ok r, tr') ->
  length (generations r)
  = match candidates response with [] => 1 | cs => length cs end.
Proof.
  unfold _response_to_result. intros H.
  apply bind_inv_ok in H as (L & tr1 & _ & H).
  apply bind_inv_ok in H as (gs & tr2 & Hloop & H).
  apply candidates_loop_length in Hloop.
  apply bind_inv_ok in H as (gs' & tr3 & Hgs & H).
  inversion H; subst; clear H. cbn [generations].
  destruct (candidates response) as [|c cs].
  - apply bind_inv_ok in Hgs as (? & ? & _ & Hgs). now inversion Hgs.
  - inversion Hgs; subst. exact Hloop.
Qed.


(** X12: under the same proviso, the generations of a result do not
    depend on the prompt feedback and the [llm_output] does not depend on
    the candidates: the result for a response is the result for its
    candidates alone, with the serialised feedback (if any) as
    [llm_output]. *)
Theorem feedback_only_affects_llm_output response ts tr :
  (forall fb e, feedback_to_dict fb = Raise e -> isinstance e Exception = true) ->
  fst (to_result response ts tr)
  = match fst (to_result (mkResponse None (candidates response)) ts tr) with
    | Ok r0 =>
        Ok (mkChatResult (generations r0)
              (feedback_output feedback_to_dict response))
    | Raise e => Raise e
    end.
Proof.
  intros Hexc. rewrite !to_result_outcome by assumption.
  cbn [candidates]. destruct (fst (run _)); reflexivity.
Qed.

(** X13: the generation built for a candidate with the final
    constructors.  Its content is what the parts map to; its class follows
    the role (AI for "model", human for "user", otherwise a chat message
    that records the role, after a warning); [generation_info] holds the
    finish reason's name only when a reason other than the unspecified one
    is set, and the safety ratings only when there are some. *)
Theorem candidate_generation_shape c tr g tr' :
  to_generation final_types c tr = (Ok g, tr') ->
  let role := content_role (candidate_content c) in
  parts_content (content_parts (candidate_content c))
  = Ok (bm_content (gen_message g)) /\
  bm_kind (gen_message g) = final_kind role /\
  bm_role (gen_message g) = (if recognized_role role then None else Some role) /\
  (recognized_role role = false ->
   In ("Unrecognized role: " +:+ role +:+ ". Treating as a ChatMessage.")
      (warnings tr')) /\
  generation_info g !! "finish_reason"
  = (if finish_reason_truthy (finish_reason c)
     then (fun f => VStr (fr_name f)) <$> finish_reason c else None) /\
  generation_info g !! "safety_ratings"
  = match safety_ratings c with
    | [] => None
    | ratings => Some (VList (map rating_to_dict ratings))
    end.
Proof.
  intros H. cbv zeta. set (role := content_role (candidate_content c)).
  unfold candidate_to_generation in H.
  apply bind_inv_ok in H as (pc & tr1 & Hpc & H).
  assert (Hcontent : parts_content (content_parts (candidate_content c)) = Ok pc).
  { rewrite <- (parts_to_content_outcome _ tr). now rewrite Hpc. }
  apply bind_inv_ok in H as (msg & tr2 & Hmsg & H).
  inversion H; subst g tr'; clear H. cbn [gen_message generation_info final_types generation_t].
  assert (Hmsg' :
    bm_content msg = pc /\ bm_kind msg = final_kind role /\
    bm_role msg = (if recognized_role role then None else Some role) /\
    (recognized_role role = false ->
     In ("Unrecognized role: " +:+ role +:+ ". Treating as a ChatMessage.")
        (warnings tr2))).
  { revert Hmsg. unfold role_map, final_kind, recognized_role. fold role.
    destruct (String.eqb role "model"); [|destruct (String.eqb role "user")];
      cbn.
    - intros [= <- <-]. cbn.
      split; [reflexivity|]. split; [reflexivity|]. split; [reflexivity|].
      discriminate.
    - intros [= <- <-]. cbn.
      split; [reflexivity|]. split; [reflexivity|]. split; [reflexivity|].
      discriminate.
    - intros [= <- <-]. cbn.
      split; [reflexivity|]. split; [reflexivity|]. split; [reflexivity|].
      intros _. rewrite warnings_app. apply in_or_app. right. now left. }
  destruct Hmsg' as (-> & Hkind & Hrole & Hwarn).
  repeat split; try assumption.
  - destruct (finish_reason c) as [f|]; cbn.
    + destruct (negb (fr_value f =? 0)%Z);
        destruct (safety_ratings c); cbn;
        rewrite ?lookup_insert_ne by discriminate;
        rewrite ?lookup_insert_eq, ?lookup_empty; reflexivity.
    + destruct (safety_ratings c); cbn;
        rewrite ?lookup_insert_ne by discriminate;
        rewrite ?lookup_empty; reflexivity.
  - destruct (finish_reason c) as [f|]; cbn;
      [destruct (negb (fr_value f =? 0)%Z)|];
      destruct (safety_ratings c); cbn;
      rewrite ?lookup_insert_eq, ?lookup_insert_ne by discriminate;
      rewrite ?lookup_insert_eq, ?lookup_empty; reflexivity.
Qed.

Lemma candidate_chunk c tr :
  to_generation chunk_types c tr
  = match to_generation final_types c tr with
    | (Ok g, tr') => (Ok (as_chunk g), tr')
    | (Raise e, tr') => (Raise e, tr')
    end.
Proof.
  unfold candidate_to_generation, bind.
  destruct (_parts_to_content _ tr) as [[pc|e] tr1]; [|reflexivity].
  unfold role_map.
  destruct (String.eqb _ "model"); [reflexivity|].
  destruct (String.eqb _ "user"); reflexivity.
Qed.

Lemma candidates_loop_chunk cs : forall gs tr,
  cloop chunk_types cs (as_chunk <$> gs) tr
  = match cloop final_types cs gs tr with
    | (Ok gs', tr') => (Ok (as_chunk <$> gs'), tr')
    | (Raise e, tr') => (Raise e, tr')
    end.
Proof.
  induction cs as [|c cs IH]; intros gs tr; cbn [candidates_loop];
    [reflexivity|].
  unfold bind. rewrite candidate_chunk.
  destruct (to_generation final_types c tr) as [[g|e] tr1]; [|reflexivity].
  rewrite <- IH. now rewrite fmap_app.
Qed.

(** Two continuations that agree up to a map of the value give binds that
    agree up to that map. *)
Lemma bind_map {A B C} (h : B -> C) (c : M A) (k1 : A -> M C) (k2 : A -> M B) tr :
  (forall a t, k1 a t = match k2 a t with
                        | (Ok b, t') => (Ok (h b), t')
                        | (Raise e, t') => (Raise e, t')
                        end) ->
  bind c k1 tr = match bind c k2 tr with
                 | (Ok b, t') => (Ok (h b), t')
                 | (Raise e, t') => (Raise e, t')
                 end.
Proof.
  intros Hk. unfold bind. destruct (c tr) as [[a|e] t]; [apply Hk|reflexivity].
Qed.

(** X14: translating a response with the chunk constructors (as the
    streaming paths do) gives the same trace and the same error as with
    the final ones, and on success the same generations in chunk form:
    same content, role and [generation_info]. *)
Theorem chunk_translation_agrees response tr :
  to_result response chunk_types tr
  = match to_result response final_types tr with
    | (Ok r, tr') =>
        (Ok (mkChatResult (as_chunk <$> generations r) (llm_output r)), tr')
    | (Raise e, tr') => (Raise e, tr')
    end.
Proof.
  unfold _response_to_result.
  apply (bind_map
           (fun r => mkChatResult (as_chunk <$> generations r) (llm_output r))).
  intros L t. unfold bind at 1. unfold bind at 3.
  change (@nil ChatGeneration) with (as_chunk <$> []) at 1.
  rewrite candidates_loop_chunk.
  destruct (cloop final_types (candidates response) [] t) as [[gs|e] tr2];
    [|reflexivity].
  destruct (candidates response); reflexivity.
Qed.

End ResponseMore.

(** ** The invoker: where the retrying stops *)

Section RetryMore.

Context `{!PyStr exn}.
Variable before_sleep_message : nat -> Z -> string.

Local Abbreviation policy := _create_retry_decorator.
Local Abbreviation retrying' := (retrying before_sleep_message policy).
Local Abbreviation schedule' := (schedule before_sleep_message policy).

(** After [more] retried attempts from attempt [k] on, an attempt that is
    not retried ends the loop. *)
Lemma retrying_until A (o : nat -> result A) more : forall k fuel tr,
  (forall j, k <= j < k + more -> retry policy A (o j) = true) ->
  retry policy A (o (k + more)) = false ->
  k + more <= 10 -> more < fuel ->
  retrying' fuel k (attempt_of o) tr
  = Some (o (k + more), tr ++ schedule' k more).
Proof.
  induction more as [|more IH]; intros k fuel tr Hprev Hlast Hk Hfuel;
    (destruct fuel as [|fuel]; [lia|]).
  - rewrite Nat.add_0_r in *. now apply retrying_final.
  - cbn [retrying]. rewrite attempt_of_run, Hprev by lia. cbn [negb].
    rewrite stop_spec, bool_decide_eq_false_2 by lia.
    rewrite IH; try lia.
    + rewrite Nat.add_succ_r. cbn [schedule Nat.add].
      now rewrite <- !app_assoc.
    + intros j Hj. apply Hprev. lia.
    + now rewrite Nat.add_succ_r in Hlast.
Qed.

Lemma sleeps_app tr1 tr2 : sleeps (tr1 ++ tr2) = sleeps tr1 ++ sleeps tr2.
Proof. apply omap_app. Qed.

Lemma calls_app tr1 tr2 : calls (tr1 ++ tr2) = calls tr1 ++ calls tr2.
Proof. apply omap_app. Qed.

(** X15: however the decorated function behaves, a run makes at most 9
    pauses and they add up to at most 302 seconds. *)
Theorem total_backoff_bounded A (o : nat -> result A) fuel tr :
  10 <= fuel ->
  exists r evs,
    retrying' fuel 1 (attempt_of o) tr = Some (r, tr ++ evs) /\
    length (sleeps evs) <= 9 /\
    (0 <= total_sleep evs <= 302)%Z.
Proof.
  intros Hfuel.
  destruct (retrying_runs before_sleep_message A o 9 1 fuel tr)
    as (c & Hc & Hrun & _); [lia | lia |].
  exists (o (1 + c)), (schedule' 1 c). split; [assumption|].
  unfold total_sleep. rewrite sleeps_schedule.
  do 10 (destruct c as [|c]; [vm_compute; repeat split; try lia; discriminate|]).
  lia.
Qed.

Context {R : Type}.
Variable generation_method : nat -> result R.

Local Abbreviation chat :=
  (_chat_with_retry before_sleep_message generation_method).
Local Abbreviation achat :=
  (_achat_with_retry before_sleep_message generation_method).

(** A capacity error passes both [try] statements and is retried. *)
Lemma capacity_error_retried e :
  capacity_error e ->
  chat_handlers (Raise e) = (Raise e : result (option R)) /\
  achat_handlers (Raise e) = (Raise e : result (option R)) /\
  retry policy (option R) (Raise e) = true.
Proof.
  intros He. rewrite retry_transient.
  unfold chat_handlers, achat_handlers, isinstance.
  destruct He as [-> | ->]; repeat split; reflexivity.
Qed.

(** X16: fatal outcomes stop the retrying at whatever attempt they occur.
    After [k - 1] capacity errors (with [k <= 10]), on both paths: a result
    at attempt [k] is returned; an invalid argument is raised wrapped; an
    exception that is not the backend's is raised as it came.  In each
    case the backend has been called [k] times with [k - 1] pauses. *)
Theorem capacity_errors_then_outcome k fuel tr :
  1 <= k <= 10 -> k <= fuel ->
  (forall j, 1 <= j < k ->
     exists e, generation_method j = Raise e /\ capacity_error e) ->
  (forall r, generation_method k = Ok r ->
     chat fuel tr = Some (Ok (Some r), tr ++ schedule' 1 (k - 1)) /\
     achat fuel tr = Some (Ok (Some r), tr ++ schedule' 1 (k - 1))) /\
  (forall e, generation_method k = Raise e ->
     exn_class e = InvalidArgument ->
     chat fuel tr = Some (Raise (invalid_argument e), tr ++ schedule' 1 (k - 1)) /\
     achat fuel tr
     = Some (Raise (invalid_argument e), tr ++ schedule' 1 (k - 1))) /\
  (forall e, generation_method k = Raise e ->
     isinstance e GoogleAPIError = false ->
     chat fuel tr = Some (Raise e, tr ++ schedule' 1 (k - 1)) /\
     achat fuel tr = Some (Raise e, tr ++ schedule' 1 (k - 1))) /\
  calls (schedule' 1 (k - 1)) = seq 1 k /\
  length (sleeps (schedule' 1 (k - 1))) = k - 1.
Proof.
  intros Hk Hfuel Hprev.
  assert (Hs : forall j, 1 <= j < k ->
             retry policy (option R) (chat_handlers (generation_method j)) = true).
  { intros j Hj. destruct (Hprev j) as (e & -> & He); [lia|].
    destruct (capacity_error_retried e He) as (-> & _ & ->). reflexivity. }
  assert (Ha : forall j, 1 <= j < k ->
             retry policy (option R) (achat_handlers (generation_method j)) = true).
  { intros j Hj. destruct (Hprev j) as (e & -> & He); [lia|].
    destruct (capacity_error_retried e He) as (_ & -> & ->). reflexivity. }
  assert (Hkk : 1 + (k - 1) = k) by lia.
  assert (Hrun : forall (h : result R -> result (option R)) out,
             (forall j, 1 <= j < k ->
                retry policy (option R) (h (generation_method j)) = true) ->
             h (generation_method k) = out ->
             retry policy (option R) out = false ->
             retrying' fuel 1 (attempt_of (fun j => h (generation_method j))) tr
             = Some (out, tr ++ schedule' 1 (k - 1))).
  { intros h out Hh Hout Hno.
    pose proof (retrying_until (option R) (fun j => h (generation_method j))
                  (k - 1) 1 fuel tr) as Hu.
    cbv beta in Hu. rewrite Hkk, Hout in Hu.
    apply Hu; [assumption | assumption | lia | lia]. }
  split; [| split; [| split; [| split]]].
  - intros r Hr.
    split; [apply (Hrun chat_handlers) | apply (Hrun achat_handlers)];
      try assumption; try reflexivity; rewrite Hr; reflexivity.
  - intros e He Hcls.
    assert (Hfp : isinstance e FailedPrecondition = false).
    { unfold isinstance. now rewrite Hcls. }
    assert (Hia : isinstance e InvalidArgument = true).
    { unfold isinstance. now rewrite Hcls. }
    split; [apply (Hrun chat_handlers) | apply (Hrun achat_handlers)];
      try assumption; try reflexivity; rewrite He;
      unfold chat_handlers, achat_handlers; rewrite ?Hfp, ?Hia; reflexivity.
  - intros e He Hcls.
    destruct (handlers_pass (R := R) e Hcls) as [Hsync Hasync].
    split; [apply (Hrun chat_handlers) | apply (Hrun achat_handlers)];
      try assumption; rewrite ?He, ?Hsync, ?Hasync;
      try reflexivity; now rewrite retry_transient.
  - rewrite calls_schedule. f_equal. lia.
  - rewrite sleeps_schedule, length_fmap, length_seq. reflexivity.
Qed.

Lemma achat_handlers_ok (x : result R) v :
  achat_handlers x = Ok v -> exists r, x = Ok r /\ v = Some r.
Proof.
  destruct x as [r|e]; unfold achat_handlers.
  - intros [= <-]. eauto.
  - destruct (isinstance e InvalidArgument); [discriminate|].
    destruct (isinstance e Exception); discriminate.
Qed.

Lemma chat_handlers_ok (x : result R) v :
  chat_handlers x = Ok v ->
  (exists r, x = Ok r /\ v = Some r) \/
  (exists e, x = Raise e /\ v = None /\ exn_class e = FailedPrecondition /\
             str_contains "location is not supported" (exn_message e) = false).
Proof.
  destruct x as [r|e]; unfold chat_handlers.
  - intros [= <-]. eauto.
  - destruct (isinstance e FailedPrecondition) eqn:Hfp.
    + destruct (str_contains _ _) eqn:Hloc; [discriminate|].
      intros [= <-]. right. exists e.
      apply instance_failed_precondition in Hfp. auto.
    + destruct (isinstance e InvalidArgument); [discriminate|].
      destruct (isinstance e Exception); discriminate.
Qed.

(** X17: what a normal return of the invoker means.  On the asynchronous
    path the value is the result of one of the at most ten calls of the
    generation method, never [None].  On the synchronous path it is such a
    result, or [None] after a failed precondition that is not about the
    location. *)
Theorem normal_returns_come_from_backend fuel tr v tr' :
  10 <= fuel ->
  (achat fuel tr = Some (Ok v, tr') ->
   exists k r, 1 <= k <= 10 /\ generation_method k = Ok r /\ v = Some r) /\
  (chat fuel tr = Some (Ok v, tr') ->
   exists k, 1 <= k <= 10 /\
     ((exists r, generation_method k = Ok r /\ v = Some r) \/
      (exists e, generation_method k = Raise e /\ v = None /\
                 exn_class e = FailedPrecondition /\
                 str_contains "location is not supported" (exn_message e)
                 = false))).
Proof.
  intros Hfuel. split; intros H.
  - unfold _achat_with_retry, achat_attempt in H.
    destruct (retrying_runs before_sleep_message (option R)
                (fun j => achat_handlers (generation_method j)) 9 1 fuel tr)
      as (c & Hc & Hrun & _); [lia | lia |].
    rewrite Hrun in H. injection H as Hv _.
    apply achat_handlers_ok in Hv as (r & Hr & ->).
    exists (1 + c), r. repeat split; try lia; assumption.
  - unfold _chat_with_retry, chat_attempt in H.
    destruct (retrying_runs before_sleep_message (option R)
                (fun j => chat_handlers (generation_method j)) 9 1 fuel tr)
      as (c & Hc & Hrun & _); [lia | lia |].
    rewrite Hrun in H. injection H as Hv _.
    apply chat_handlers_ok in Hv.
    exists (1 + c). split; [lia | assumption].
Qed.

End RetryMore.

(** ** Request assembly and the public operations *)

Section OrchestratorMore.

Variable _url_to_pil : pyval -> result image.
Context `{!PyStr pyval} `{!PyStr Part} `{!PyStr (option PromptFeedback)}
        `{!PyStr exn}.
Variable feedback_to_dict : PromptFeedback -> result pyval.
Variable rating_to_dict : SafetyRating -> pyval.
Variable before_sleep_message : nat -> Z -> string.

Local Abbreviation parse := (_parse_chat_history _url_to_pil).
Local Abbreviation prepare := (_prepare_chat _url_to_pil).
Local Abbreviation to_result :=
  (_response_to_result feedback_to_dict rating_to_dict).
Local Abbreviation generate :=
  (_generate _url_to_pil feedback_to_dict rating_to_dict before_sleep_message).
Local Abbreviation agenerate :=
  (_agenerate _url_to_pil feedback_to_dict rating_to_dict before_sleep_message).
Local Abbreviation stream :=
  (_stream _url_to_pil feedback_to_dict rating_to_dict before_sleep_message).
Local Abbreviation astream :=
  (_astream _url_to_pil feedback_to_dict rating_to_dict before_sleep_message).
Local Abbreviation sloop := (stream_loop feedback_to_dict rating_to_dict).

(** X18: without a [generation_config] keyword, the request's
    [generation_config] holds the configured parameters that are set and
    no entry for the ones that are unset (the candidate count is always
    there), and the other keywords pass through. *)
Theorem unset_parameters_are_dropped self stop (kwargs : dict) tr :
  kwargs !! "generation_config" = None ->
  exists cfg : dict,
    _prepare_params self stop kwargs tr
    = (Ok (<[ "generation_config" := VDict cfg ]> kwargs), tr) /\
    cfg !! "candidate_count" = Some (VInt (n self)) /\
    cfg !! "temperature" = VFloat <$> temperature self /\
    cfg !! "stop_sequences" = (fun l => VList (VStr <$> l)) <$> stop /\
    cfg !! "max_output_tokens" = VInt <$> max_output_tokens self /\
    cfg !! "top_k" = VInt <$> top_k self /\
    cfg !! "top_p" = VFloat <$> top_p self /\
    (forall k, k ∉ config_keys -> cfg !! k = None).
Proof.
  intros Hnone. exists (default_config self stop).
  split; [unfold _prepare_params; now rewrite Hnone|].
  unfold default_config, not_none, config_keys.
  destruct (temperature self), stop, (max_output_tokens self), (top_k self),
    (top_p self); cbn [fmap option_fmap option_map omap list_omap fst snd
                       list_to_map foldr uncurry];
    (repeat (split; [reflexivity|]));
    intros k Hk;
    rewrite ?lookup_insert_ne by (intros <-; apply Hk; set_solver);
    apply lookup_empty.
Qed.

(** X19: with a [generation_config] keyword holding a dict, each of its
    entries ends up in the request's [generation_config]; the configured
    parameters fill the keys it leaves out; the other keywords pass
    through. *)
Theorem per_call_overrides_win self stop (kwargs o : dict) tr :
  kwargs !! "generation_config" = Some (VDict o) ->
  exists cfg : dict,
    _prepare_params self stop kwargs tr
    = (Ok (<[ "generation_config" := VDict cfg ]> kwargs), tr) /\
    forall k,
      cfg !! k = match o !! k with
                 | Some v => Some v
                 | None => default_config self stop !! k
                 end.
Proof.
  intros Hsome. exists (o ∪ default_config self stop). split.
  - unfold _prepare_params. rewrite Hsome.
    now rewrite insert_delete_eq.
  - intros k. destruct (o !! k) as [v|] eqn:Hk.
    + now apply lookup_union_Some_l.
    + now apply lookup_union_r.
Qed.

Lemma list_pop_snoc {A} (hist : list A) (msg : A) tr :
  list_pop (hist ++ [msg]) tr = (Ok (msg, hist), tr).
Proof. unfold list_pop. now rewrite last_snoc, removelast_last. Qed.

(** X20: when the conversation translates to at least one turn, request
    preparation hands the last turn over as the message to send and starts
    the chat session with the turns before it, after the translation and
    without any call to the backend. *)
Theorem prepare_chat_splits_history self messages stop tr ts tr1 :
  parse messages (convert_system_message_to_human self) tr = (Ok ts, tr1) ->
  ts <> [] ->
  exists params hist msg,
    prepare self messages stop ∅ tr
    = (Ok (params, mkChatSession hist, msg), tr1 ++ [EvStartChat hist]) /\
    ts = hist ++ [msg] /\
    _prepare_params self stop ∅ tr = (Ok params, tr).
Proof.
  intros Hparse Hne.
  destruct (exists_last Hne) as (hist & msg & ->).
  destruct (prepare_params_plain self stop tr) as [params Hp].
  exists params, hist, msg. split; [| split; [reflexivity | assumption]].
  unfold _prepare_chat. unfold bind at 1. rewrite Hp.
  unfold bind at 1. rewrite Hparse.
  unfold bind at 1. rewrite list_pop_snoc. reflexivity.
Qed.

(** X21: when the history translation raises, so do the four public
    operations, with that error and whatever fuel: no chat session is
    started and the backend is not called. *)
Theorem translation_errors_precede_network self messages stop e tr tr1 :
  _parse_chat_history _url_to_pil messages
    (convert_system_message_to_human self) tr = (Raise e, tr1) ->
  forall send asend ssend assend run_manager fuel,
    generate self messages stop send fuel tr = Some (Raise e, tr1) /\
    agenerate self messages stop asend fuel tr = Some (Raise e, tr1) /\
    stream self messages stop run_manager ssend fuel tr
    = Some (Raise e, tr1) /\
    astream self messages stop run_manager assend fuel tr
    = Some (Raise e, tr1).
Proof.
  intros Hparse send asend ssend assend run_manager fuel.
  assert (Hprep : prepare self messages stop ∅ tr = (Raise e, tr1)).
  { destruct (prepare_params_plain self stop tr) as [params Hp].
    unfold _prepare_chat. unfold bind at 1. rewrite Hp.
    unfold bind at 1. now rewrite Hparse. }
  unfold _generate, _agenerate, _stream, _astream. rewrite Hprep. auto.
Qed.

(** X22: when the request is prepared and the first call of the backend
    answers, [_generate] and [_agenerate] return the translation of that
    answer, after that one call and without a pause. *)
Theorem first_response_is_translated self messages stop x tr tr1
    send response fuel :
  prepare self messages stop ∅ tr = (Ok x, tr1) ->
  send 1 = Ok response ->
  generate self messages stop send (S fuel) tr
  = Some (to_result response final_types (tr1 ++ [EvCall 1])) /\
  agenerate self messages stop send (S fuel) tr
  = Some (to_result response final_types (tr1 ++ [EvCall 1])).
Proof.
  intros Hprep Hsend. unfold _generate, _agenerate. rewrite Hprep.
  rewrite chat_final, achat_final; rewrite Hsend; try reflexivity.
  cbn. split; destruct (to_result _ _ _) as [[r|e] tr2]; reflexivity.
Qed.

(** X23: when the request is prepared and the first call of the backend
    raises a failed precondition that is not about the location,
    [_generate] does not raise that error: the invoker has returned
    [None], and reading the response raises [AttributeError]. *)
Theorem unreported_precondition_in_generate self messages stop x tr tr1
    send e fuel :
  prepare self messages stop ∅ tr = (Ok x, tr1) ->
  send 1 = Raise e ->
  exn_class e = FailedPrecondition ->
  str_contains "location is not supported" (exn_message e) = false ->
  exists e',
    generate self messages stop send (S fuel) tr
    = Some (Raise e', tr1 ++ [EvCall 1]) /\
    exn_class e' = AttributeError.
Proof.
  intros Hprep Hsend Hcls Hloc. unfold _generate. rewrite Hprep.
  rewrite (failed_precondition_swallowed before_sleep_message send e fuel tr1)
    by assumption.
  eexists. split; reflexivity.
Qed.

End OrchestratorMore.

(** ** Streaming *)






Section StreamProps.

Context `{!PyStr Part} `{!PyStr (option PromptFeedback)} `{!PyStr exn}.
Variable feedback_to_dict : PromptFeedback -> result pyval.
Variable rating_to_dict : SafetyRating -> pyval.

Local Abbreviation to_result :=
  (_response_to_result feedback_to_dict rating_to_dict).
Local Abbreviation to_generation := (candidate_to_generation rating_to_dict).
Local Abbreviation cloop := (candidates_loop rating_to_dict).
Local Abbreviation sloop := (stream_loop feedback_to_dict rating_to_dict).













End StreamProps.

(** ** Validation order and the API key *)

(** X25: with an API key at hand, validation reports the first check that
    fails, in the order temperature, top_p, top_k, and in each case the
    SDK has been configured but no model object has been built. *)
Theorem validation_reports_first_failure values environ tr k :
  google_api_key values = Some k -> k <> "" ->
  (forall t,
      temperature values = Some t -> in_unit_interval t = false ->
      validate_environment values environ tr
      = (Raise (Exn ValueError "temperature must be in the range [0.0, 1.0]"
                  None),
         tr ++ [EvConfigure k (transport values)])) /\
  (forall p,
      valid_unit (temperature values) = true ->
      top_p values = Some p -> in_unit_interval p = false ->
      validate_environment values environ tr
      = (Raise (Exn ValueError "top_p must be in the range [0.0, 1.0]" None),
         tr ++ [EvConfigure k (transport values)])) /\
  (forall top,
      valid_unit (temperature values) = true ->
      valid_unit (top_p values) = true ->
      top_k values = Some top -> (top <= 0)%Z ->
      validate_environment values environ tr
      = (Raise (Exn ValueError "top_k must be positive" None),
         tr ++ [EvConfigure k (transport values)])).
Proof.
  intros Hk Hne.
  pose proof (get_from_dict_or_env_key values environ tr k Hk Hne) as Hkey.
  split; [| split].
  - intros t Htv Ht. unfold validate_environment.
    unfold bind at 1. rewrite Hkey. rewrite Htv, Ht. reflexivity.
  - intros p Htemp Hpv Hp. unfold validate_environment.
    unfold bind at 1. rewrite Hkey. rewrite Hpv, Hp.
    unfold valid_unit in Htemp.
    destruct (temperature values) as [t|]; [rewrite Htemp|]; reflexivity.
  - intros top Htemp Htop Hkv Hle. unfold validate_environment.
    unfold bind at 1. rewrite Hkey. rewrite Hkv.
    apply Z.leb_le in Hle. rewrite Hle.
    unfold valid_unit in Htemp, Htop.
    destruct (temperature values) as [t|]; [rewrite Htemp|];
      (destruct (top_p values) as [p|]; [rewrite Htop|]); reflexivity.
Qed.

(** X26: without a key in the fields (unset or empty) and with no
    [GOOGLE_API_KEY] in the environment, validation raises a [ValueError]
    before anything else: the SDK is not configured and the sampling
    parameters are not looked at. *)
Theorem missing_api_key_rejected_first values environ tr :
  google_api_key values = None \/ google_api_key values = Some "" ->
  environ !! "GOOGLE_API_KEY" = None ->
  exists e,
    validate_environment values environ tr = (Raise e, tr) /\
    exn_class e = ValueError.
Proof.
  intros Hkey Henv. unfold validate_environment, bind at 1.
  unfold get_from_dict_or_env.
  destruct Hkey as [-> | ->]; cbn; rewrite Henv; cbn;
    eexists; split; reflexivity.
Qed.

(** ** Substring and prefix tests *)

Lemma prefix_spec a : forall s,
  String.prefix a s = true <-> exists rest, s = a +:+ rest.
Proof.
  induction a as [|c a IH]; intros s.
  - split; [intros _; now exists s | intros _; now destruct s].
  - destruct s as [|d s]; cbn.
    + split; [discriminate | intros [rest H]; discriminate].
    + destruct (Ascii.ascii_dec c d) as [->|Hne].
      * rewrite IH. split; intros [rest H]; exists rest; [now rewrite H|].
        now injection H.
      * split; [discriminate|]. intros [rest H]. injection H as ? ?.
        congruence.
Qed.

Lemma str_contains_spec needle : forall hay,
  str_contains needle hay = true <->
  exists pre post, hay = pre +:+ needle +:+ post.
Proof.
  induction hay as [|c hay IH]; cbn [str_contains].
  - rewrite orb_false_r, prefix_spec. split.
    + intros [rest H]. exists "", rest. exact H.
    + intros (pre & post & H). destruct pre; [now exists post|discriminate].
  - rewrite orb_true_iff, prefix_spec, IH. split.
    + intros [[rest H] | (pre & post & H)].
      * exists "", rest. exact H.
      * exists (String c pre), post. cbn. now rewrite H.
    + intros (pre & post & H). destruct pre as [|d pre].
      * left. now exists post.
      * right. injection H as _ H. now exists pre, post.
Qed.

(** X27: the two string tests of the module mean what Python's operators
    mean: a model counts as a vision model exactly when its name contains
    "vision" somewhere, and a source counts as base64 exactly when it
    starts with "data:image". *)
Theorem string_tests_spec s :
  (_is_vision_model s = true <->
   exists pre post, s = pre +:+ "vision" +:+ post) /\
  (_is_b64 s = true <-> exists rest, s = "data:image" +:+ rest).
Proof.
  split; [apply str_contains_spec | apply prefix_spec].
Qed.

(** ** Instances of the properties above *)

Lemma one_generation_per_candidate_witness :
  length (generations (mkChatResult [hello_generation] ∅))
  = match candidates hello_response with [] => 1 | cs => length cs end.
Proof.
  apply (one_generation_per_candidate no_feedback_dict no_rating_dict
           hello_response final_types [] (mkChatResult [hello_generation] ∅) []).
  reflexivity.
Defined.


Lemma feedback_only_affects_llm_output_witness :
  fst (_response_to_result no_feedback_dict no_rating_dict
         hello_response final_types [])
  = match fst (_response_to_result no_feedback_dict no_rating_dict
                 (mkResponse None (candidates hello_response)) final_types [])
    with
    | Ok r0 =>
        Ok (mkChatResult (generations r0)
              (feedback_output no_feedback_dict hello_response))
    | Raise e => Raise e
    end.
Proof.
  apply (feedback_only_affects_llm_output no_feedback_dict no_rating_dict
           hello_response final_types []).
  intros fb e H. discriminate H.
Defined.

Lemma candidate_generation_shape_witness :
  parts_content (content_parts (candidate_content hello_candidate))
  = Ok (bm_content (gen_message hello_generation)) /\
  bm_kind (gen_message hello_generation) = final_kind "model".
Proof.
  destruct (candidate_generation_shape no_rating_dict hello_candidate []
              hello_generation [] eq_refl) as (H1 & H2 & _).
  split; [exact H1 | exact H2].
Defined.

Lemma total_backoff_bounded_witness :
  exists r evs,
    retrying retry_message _create_retry_decorator 10 1
      (attempt_of busy_once) [] = Some (r, [] ++ evs) /\
    length (sleeps evs) <= 9 /\
    (0 <= total_sleep evs <= 302)%Z.
Proof.
  apply (total_backoff_bounded retry_message unit busy_once 10 []). lia.
Defined.

Lemma capacity_errors_then_outcome_witness :
  _chat_with_retry retry_message busy_once 10 []
  = Some (Ok (Some tt),
          [] ++ schedule retry_message _create_retry_decorator 1 (2 - 1)).
Proof.
  destruct (capacity_errors_then_outcome retry_message busy_once 2 10 [])
    as (H & _).
  - lia.
  - lia.
  - intros j Hj. assert (j = 1) as -> by lia.
    eexists. split; [reflexivity|]. now left.
  - exact (proj1 (H tt eq_refl)).
Defined.

Lemma normal_returns_come_from_backend_witness :
  exists k r, 1 <= k <= 10 /\ busy_once k = Ok r /\ Some tt = Some r.
Proof.
  refine (proj1 (normal_returns_come_from_backend retry_message busy_once 10 []
                   (Some tt)
                   (schedule retry_message _create_retry_decorator 1 1) _) _).
  - lia.
  - reflexivity.
Defined.

Lemma unset_parameters_are_dropped_witness :
  exists cfg : dict,
    _prepare_params (with_temperature 0.5) None ∅ []
    = (Ok (<[ "generation_config" := VDict cfg ]> ∅), []) /\
    cfg !! "candidate_count" = Some (VInt (n (with_temperature 0.5))) /\
    cfg !! "temperature" = VFloat <$> temperature (with_temperature 0.5) /\
    cfg !! "stop_sequences" = (fun l => VList (VStr <$> l)) <$> None /\
    cfg !! "max_output_tokens"
    = VInt <$> max_output_tokens (with_temperature 0.5) /\
    cfg !! "top_k" = VInt <$> top_k (with_temperature 0.5) /\
    cfg !! "top_p" = VFloat <$> top_p (with_temperature 0.5) /\
    (forall k, k ∉ config_keys -> cfg !! k = None).
Proof.
  apply (unset_parameters_are_dropped (with_temperature 0.5) None ∅ []).
  reflexivity.
Defined.

Lemma per_call_overrides_win_witness :
  exists cfg : dict,
    _prepare_params (with_temperature 0.5) None
      {[ "generation_config" := VDict {[ "temperature" := VFloat 0.25 ]} ]} []
    = (Ok (<[ "generation_config" := VDict cfg ]>
             {[ "generation_config" := VDict {[ "temperature" := VFloat 0.25 ]} ]}),
       []) /\
    forall k,
      cfg !! k
      = match ({[ "temperature" := VFloat 0.25 ]} : dict) !! k with
        | Some v => Some v
        | None => default_config (with_temperature 0.5) None !! k
        end.
Proof.
  apply (per_call_overrides_win (with_temperature 0.5) None
           {[ "generation_config" := VDict {[ "temperature" := VFloat 0.25 ]} ]}
           {[ "temperature" := VFloat 0.25 ]} []).
  reflexivity.
Defined.

Lemma prepare_chat_splits_history_witness :
  exists params hist msg,
    _prepare_chat no_image (with_temperature 0.5) hi_messages None ∅ []
    = (Ok (params, mkChatSession hist, msg),
       [EvConvertParts (CStr "Hi")] ++ [EvStartChat hist]) /\
    [hi_turn] = hist ++ [msg] /\
    _prepare_params (with_temperature 0.5) None ∅ [] = (Ok params, []).
Proof.
  apply (prepare_chat_splits_history no_image (with_temperature 0.5)
           hi_messages None [] [hi_turn] [EvConvertParts (CStr "Hi")]).
  - reflexivity.
  - discriminate.
Defined.

Lemma translation_errors_precede_network_witness :
  _generate no_image no_feedback_dict no_rating_dict retry_message
    (with_temperature 0.5) [Message SystemMessage (CStr "Be terse")] None
    (fun _ => Ok hello_response) 10 []
  = Some (Raise (Exn ValueError system_not_supported None), []).
Proof.
  apply (translation_errors_precede_network no_image no_feedback_dict
           no_rating_dict retry_message (with_temperature 0.5)
           [Message SystemMessage (CStr "Be terse")] None
           (Exn ValueError system_not_supported None) [] [] eq_refl
           (fun _ => Ok hello_response) (fun _ => Ok hello_response)
           (fun _ => Ok []) (fun _ => Ok []) false 10).
Defined.

Lemma first_response_is_translated_witness :
  _generate no_image no_feedback_dict no_rating_dict retry_message
    (with_temperature 0.5) hi_messages None (fun _ => Ok hello_response) 1 []
  = Some (_response_to_result no_feedback_dict no_rating_dict hello_response
            final_types
            ([EvConvertParts (CStr "Hi"); EvStartChat []] ++ [EvCall 1])).
Proof.
  apply (first_response_is_translated no_image no_feedback_dict
           no_rating_dict retry_message (with_temperature 0.5) hi_messages None
           (<[ "generation_config"
               := VDict (default_config (with_temperature 0.5) None) ]> ∅,
            mkChatSession [], hi_turn)
           [] [EvConvertParts (CStr "Hi"); EvStartChat []]
           (fun _ => Ok hello_response) hello_response 0);
    reflexivity.
Defined.

Lemma unreported_precondition_in_generate_witness :
  exists e',
    _generate no_image no_feedback_dict no_rating_dict retry_message
      (with_temperature 0.5) hi_messages None (fun _ => Raise disabled_error)
      1 []
    = Some (Raise e',
            [EvConvertParts (CStr "Hi"); EvStartChat []] ++ [EvCall 1]) /\
    exn_class e' = AttributeError.
Proof.
  apply (unreported_precondition_in_generate no_image no_feedback_dict
           no_rating_dict retry_message (with_temperature 0.5) hi_messages None
           (<[ "generation_config"
               := VDict (default_config (with_temperature 0.5) None) ]> ∅,
            mkChatSession [], hi_turn)
           [] [EvConvertParts (CStr "Hi"); EvStartChat []]
           (fun _ => Raise disabled_error) disabled_error 0);
    reflexivity.
Defined.

Lemma validation_reports_first_failure_witness :
  validate_environment (with_temperature 1.5) ∅ []
  = (Raise (Exn ValueError "temperature must be in the range [0.0, 1.0]" None),
     [] ++ [EvConfigure "key" (transport (with_temperature 1.5))]).
Proof.
  refine (proj1 (validation_reports_first_failure (with_temperature 1.5) ∅ []
                   "key" eq_refl _) 1.5%float eq_refl eq_refl).
  discriminate.
Defined.

Lemma missing_api_key_rejected_first_witness :
  exists e,
    validate_environment keyless_model ∅ [] = (Raise e, []) /\
    exn_class e = ValueError.
Proof.
  apply (missing_api_key_rejected_first keyless_model ∅ []).
  - left. reflexivity.
  - reflexivity.
Defined.
